(** * extract-from-repos.py: playlist extraction pipeline

    A shallow embedding of [extract-from-repos.py] and the properties of its
    header builder, source adapters, deduplicator, writer and summary.

    Modelling decisions, valid for the whole file:
    - A Python [str] is a [string]; a character is a code point below 256.
    - The values produced by [json.loads] are the type [json]; numbers are
      the integers (floating point numbers are not modelled).
    - Python exceptions are the type [pyexn]; code that can raise returns a
      [result].  Code that also mutates [all_entries] or fetches runs in the
      monad [M], in which the state survives a raised exception, as the
      appended entries of the source do.
    - The remote services are a function [net] from URL to an optional JSON
      document: [fetch_json] returns [None] on any failure.  They answer a
      URL the same way during one run.  Progress messages are not modelled;
      the fetched URLs are recorded in [requests].
    - The output file is the text written to it.  [main] is the run whose
      file can be opened and written; [main_on] takes the outcome of the
      write as an argument, and is [main] when the write succeeds. *)

From Stdlib Require Import Ascii.
From stdpp Require Import base numbers list strings pretty gmap sets.

Local Set Warnings "-register-all".

(** ** Strings: the [str] methods and operators the script uses *)

Module PyStr.

(** The double quote character, written by its code so that no string
    literal of this file has to contain one. *)
Definition dq : ascii := "034"%char.

Definition quoted (s : string) : string := String dq s +:+ String dq "".

(** [s.startswith(p)] *)
Fixpoint startswith (p s : string) : bool :=
  match p with
  | "" => true
  | String a p' =>
      match s with
      | "" => false
      | String b s' => if decide (a = b) then startswith p' s' else false
      end
  end.

(** Unicode [Numeric_Type] Digit or Decimal, for code points below 256:
    the ten ASCII digits and the superscripts two, three and one. *)
Definition digit_char (c : ascii) : bool :=
  let n := N_of_ascii c in
  ((48 <=? n) && (n <=? 57) || (n =? 178) || (n =? 179) || (n =? 185))%N.

(** The class [\d] of [re] on [str] patterns (category Nd): below 256
    these are the ten ASCII digits. *)
Definition decimal_char (c : ascii) : bool :=
  let n := N_of_ascii c in ((48 <=? n) && (n <=? 57))%N.

Fixpoint all_chars (p : ascii → bool) (s : string) : bool :=
  match s with
  | "" => true
  | String c s' => p c && all_chars p s'
  end.

(** [s.isdigit()]: at least one character, and all of them digits. *)
Definition isdigit (s : string) : bool :=
  match s with
  | "" => false
  | _ => all_chars digit_char s
  end.

(** [s.replace(old, new)] for a non-empty [old]: every non-overlapping
    occurrence, scanning from the left.  [skip] counts the characters of
    the occurrence just replaced that are still to be passed over. *)
Fixpoint replace_go (old new : string) (skip : nat) (s : string) : string :=
  match s with
  | "" => ""
  | String c s' =>
      match skip with
      | S k => replace_go old new k s'
      | O =>
          if startswith old s
          then new +:+ replace_go old new (String.length old - 1) s'
          else String c (replace_go old new 0 s')
      end
  end.

(** With an empty [old], Python puts [new] before every character and at
    the end. *)
Fixpoint intersperse (new s : string) : string :=
  match s with
  | "" => new
  | String c s' => new +:+ String c (intersperse new s')
  end.

Definition replace (old new s : string) : string :=
  match old with
  | "" => intersperse new s
  | _ => replace_go old new 0 s
  end.

(** [needle in hay] on two strings. *)
Fixpoint contains (needle hay : string) : bool :=
  match hay with
  | "" => startswith needle ""
  | String _ hay' => startswith needle hay || contains needle hay'
  end.

(** The longest run of [\d] characters at the front of [s], and the rest. *)
Fixpoint span_decimal (s : string) : string * string :=
  match s with
  | "" => ("", "")
  | String c s' =>
      if decimal_char c
      then let '(ds, rest) := span_decimal s' in (String c ds, rest)
      else ("", s)
  end.

(** [re.search(r'/(\d+)\.jpg', s)], returning group 1 of the leftmost
    match.  A match at a slash takes the whole run of digits after it:
    a shorter run is followed by a digit, not by the dot. *)
Fixpoint search_jpg_stem (s : string) : option string :=
  match s with
  | "" => None
  | String c s' =>
      if decide (c = "/"%char)
      then let '(ds, rest) := span_decimal s' in
           match ds with
           | String _ _ =>
               if startswith ".jpg" rest then Some ds else search_jpg_stem s'
           | "" => search_jpg_stem s'
           end
      else search_jpg_stem s'
  end.

(** [sep.join(parts)] *)
Fixpoint join (sep : string) (parts : list string) : string :=
  match parts with
  | [] => ""
  | [p] => p
  | p :: ps => p +:+ sep +:+ join sep ps
  end.

End PyStr.

(** ** Python values and exceptions *)

Inductive json : Type :=
| JNull
| JBool (b : bool)
| JInt (n : Z)
| JStr (s : string)
| JArr (items : list json)
| JObj (fields : list (string * json)).

Inductive pyexn : Type :=
| AttributeError
| TypeError
| KeyError
| ZeroDivisionError
| OSError.

Inductive result (A : Type) : Type :=
| Ok (a : A)
| Raise (e : pyexn).
Arguments Ok {A} a.
Arguments Raise {A} e.

Global Instance result_ret : MRet result := λ A a, Ok a.
Global Instance result_bind : MBind result := λ A B f m,
  match m with
  | Ok a => f a
  | Raise e => Raise e
  end.

Module Py.

(** [bool(v)] *)
Definition truthy (v : json) : bool :=
  match v with
  | JNull => false
  | JBool b => b
  | JInt n => negb (n =? 0)%Z
  | JStr s => negb (bool_decide (s = ""))
  | JArr l => negb (bool_decide (l = []))
  | JObj o => negb (bool_decide (o = []))
  end.

(** A parsed object, as an association list in insertion order with
    distinct keys; the first binding of a key is the one found. *)
Fixpoint lookup_field (k : string) (o : list (string * json)) : option json :=
  match o with
  | [] => None
  | (k', v) :: o' => if decide (k = k') then Some v else lookup_field k o'
  end.

(** [v.get(k, default)]: only a dict has the method. *)
Definition get_default (v : json) (k : string) (default : json) : result json :=
  match v with
  | JObj o => Ok (from_option id default (lookup_field k o))
  | _ => Raise AttributeError
  end.

(** [v.get(k)] *)
Definition get (v : json) (k : string) : result json := get_default v k JNull.

(** [v[k]] with a string key. *)
Definition index (v : json) (k : string) : result json :=
  match v with
  | JObj o =>
      match lookup_field k o with
      | Some x => Ok x
      | None => Raise KeyError
      end
  | _ => Raise TypeError
  end.

(** The values a [for] loop over [v] binds, in order: the elements of a
    list, the keys of a dict, the characters of a string. *)
Fixpoint chars (s : string) : list json :=
  match s with
  | "" => []
  | String c s' => JStr (String c "") :: chars s'
  end.

Definition iter (v : json) : result (list json) :=
  match v with
  | JArr l => Ok l
  | JObj o => Ok (map (λ kv, JStr (fst kv)) o)
  | JStr s => Ok (chars s)
  | _ => Raise TypeError
  end.

(** [len(v)] *)
Definition len (v : json) : result nat :=
  match v with
  | JArr l => Ok (length l)
  | JObj o => Ok (length o)
  | JStr s => Ok (String.length s)
  | _ => Raise TypeError
  end.

(** [v.startswith(p)] and [v.isdigit()]: methods of [str] only. *)
Definition startswith (v : json) (p : string) : result bool :=
  match v with
  | JStr s => Ok (PyStr.startswith p s)
  | _ => Raise AttributeError
  end.

Definition isdigit (v : json) : result bool :=
  match v with
  | JStr s => Ok (PyStr.isdigit s)
  | _ => Raise AttributeError
  end.

(** [v.replace(old, new)]: [str] has it, and no other JSON value. *)
Definition replace (v : json) (old new : string) : result string :=
  match v with
  | JStr s => Ok (PyStr.replace old new s)
  | _ => Raise AttributeError
  end.

(** [needle in v] for a string [needle]: substring of a string, element
    of a list, key of a dict; other values are not containers. *)
Definition is_str (needle : string) (v : json) : bool :=
  match v with
  | JStr s => bool_decide (s = needle)
  | _ => false
  end.

Definition contains (needle : string) (v : json) : result bool :=
  match v with
  | JStr s => Ok (PyStr.contains needle s)
  | JArr l => Ok (existsb (is_str needle) l)
  | JObj o => Ok (existsb (λ kv, bool_decide (fst kv = needle)) o)
  | _ => Raise TypeError
  end.

(** [re.search(r'/(\d+)\.jpg', v)]: a string is required. *)
Definition search_jpg_stem (v : json) : result (option string) :=
  match v with
  | JStr s => Ok (PyStr.search_jpg_stem s)
  | _ => Raise TypeError
  end.

(** *** [repr] and [str] *)

Definition hex_digit (n : N) : ascii :=
  match n with
  | 0 => "0" | 1 => "1" | 2 => "2" | 3 => "3" | 4 => "4" | 5 => "5"
  | 6 => "6" | 7 => "7" | 8 => "8" | 9 => "9" | 10 => "a" | 11 => "b"
  | 12 => "c" | 13 => "d" | 14 => "e" | _ => "f"
  end%char%N.

Definition backslash : ascii := "092"%char.
Definition squote : ascii := "039"%char.

(** Code points below 256 that [repr] writes as a hexadecimal escape:
    the control characters, the no-break space and the soft hyphen. *)
Definition unprintable (n : N) : bool :=
  ((n <? 32) || (n =? 127) || (128 <=? n) && (n <=? 160) || (n =? 173))%N.

Definition repr_char (quote c : ascii) : string :=
  let n := N_of_ascii c in
  if bool_decide (c = quote) || bool_decide (c = backslash)
  then String backslash (String c "")
  else if (n =? 9)%N then String backslash "t"
  else if (n =? 10)%N then String backslash "n"
  else if (n =? 13)%N then String backslash "r"
  else if unprintable n
  then String backslash
         (String "x" (String (hex_digit (n `div` 16)) (String (hex_digit (n `mod` 16)) "")))
  else String c "".

Fixpoint has_char (c : ascii) (s : string) : bool :=
  match s with
  | "" => false
  | String d s' => bool_decide (c = d) || has_char c s'
  end.

Fixpoint repr_chars (quote : ascii) (s : string) : string :=
  match s with
  | "" => ""
  | String c s' => repr_char quote c +:+ repr_chars quote s'
  end.

(** Single quotes, unless the string has a single quote and no double
    quote. *)
Definition repr_str (s : string) : string :=
  let quote :=
    if has_char squote s && negb (has_char PyStr.dq s) then PyStr.dq else squote in
  String quote (repr_chars quote s) +:+ String quote "".

Fixpoint repr (v : json) : string :=
  match v with
  | JNull => "None"
  | JBool true => "True"
  | JBool false => "False"
  | JInt n => pretty n
  | JStr s => repr_str s
  | JArr l => "[" +:+ PyStr.join ", " (map repr l) +:+ "]"
  | JObj o =>
      "{" +:+ PyStr.join ", " (map (λ kv, repr_str (fst kv) +:+ ": " +:+ repr (snd kv)) o) +:+ "}"
  end.

(** [str(v)], which is what an f-string field writes. *)
Definition str (v : json) : string :=
  match v with
  | JStr s => s
  | _ => repr v
  end.

End Py.

(** ** The header builder *)

(** [extract_tmdb_from_poster(poster_url)]; [None] is Python's [None]. *)
Definition extract_tmdb_from_poster (poster_url : json) : result (option string) :=
  if negb (Py.truthy poster_url) then Ok None
  else
    has_host ← Py.contains "tmdb.org" poster_url;
    if negb has_host then Ok None
    else Py.search_jpg_stem poster_url.

(** The value of [tmdb_id] after lines 36 to 40 of the source. *)
Definition resolve_tmdb_id (item : json) : result (option string) :=
  own_id ← Py.get item "id";
  usable ←
    (if Py.truthy own_id then
       id_value ← Py.index item "id";
       has_tt ← Py.startswith id_value "tt";
       if has_tt : bool then Ok true
       else id_value ← Py.index item "id"; Py.isdigit id_value
     else Ok false);
  if usable : bool then
    id_value ← Py.index item "id";
    stripped ← Py.replace id_value "tt" "";
    Ok (Some stripped)
  else
    poster ← Py.get item "poster";
    if Py.truthy poster then
      poster_url ← Py.index item "poster";
      extract_tmdb_from_poster poster_url
    else Ok None.

(** [if tmdb_id:] *)
Definition tmdb_truthy (tmdb_id : option string) : bool :=
  match tmdb_id with
  | Some (String _ _) => true
  | _ => false
  end.

Definition tvg_id_part (tmdb_id : string) : string := "tvg-id=" +:+ PyStr.quoted tmdb_id.
Definition tvg_name_part (name : json) : string := "tvg-name=" +:+ PyStr.quoted (Py.str name).
Definition tvg_logo_part (poster : json) : string := "tvg-logo=" +:+ PyStr.quoted (Py.str poster).
Definition group_title_part (group : string) : string := "group-title=" +:+ PyStr.quoted group.

(** The header under construction: the list [parts] and the [title]. *)
Record header : Type := Header {
  parts : list string;
  title : string
}.

(** The body of [create_extinf] up to its [return]. *)
Definition create_extinf_header (item : json) (content_type : string) : result header :=
  let parts := ["#EXTINF:-1"] in
  tmdb_id ← resolve_tmdb_id item;
  let parts :=
    if tmdb_truthy tmdb_id then parts ++ [tvg_id_part (default "" tmdb_id)] else parts in
  name ← Py.get_default item "name" (JStr "Unknown");
  let parts := parts ++ [tvg_name_part name] in
  poster ← Py.get item "poster";
  parts ←
    (if Py.truthy poster then
       poster_value ← Py.index item "poster";
       Ok (parts ++ [tvg_logo_part poster_value])
     else Ok parts);
  let group := if bool_decide (content_type = "series") then "Series" else "Movies" in
  let parts := parts ++ [group_title_part group] in
  let title := Py.str name in
  year ← Py.get item "year";
  title ←
    (if Py.truthy year then
       year_value ← Py.index item "year";
       Ok (Py.str name +:+ " (" +:+ Py.str year_value +:+ ")")
     else Ok title);
  Ok (Header parts title).

(** The header of an object with the given [fields], once [tmdb_id] is
    known: a closed form of [create_extinf_header], used to reason about it. *)
Definition field (fields : list (string * json)) (k : string) : json :=
  default JNull (Py.lookup_field k fields).

Definition name_of (fields : list (string * json)) : json :=
  from_option id (JStr "Unknown") (Py.lookup_field "name" fields).

Definition header_of (fields : list (string * json)) (content_type : string)
    (tmdb_id : option string) : header :=
  Header
    (["#EXTINF:-1"]
       ++ (if tmdb_truthy tmdb_id then [tvg_id_part (default "" tmdb_id)] else [])
       ++ [tvg_name_part (name_of fields)]
       ++ (if Py.truthy (field fields "poster")
           then [tvg_logo_part (field fields "poster")] else [])
       ++ [group_title_part
             (if bool_decide (content_type = "series") then "Series" else "Movies")])
    (if Py.truthy (field fields "year")
     then Py.str (name_of fields) +:+ " (" +:+ Py.str (field fields "year") +:+ ")"
     else Py.str (name_of fields)).

(** [' '.join(parts) + f', {title}'] *)
Definition render (h : header) : string :=
  PyStr.join " " (parts h) +:+ ", " +:+ title h.

Definition create_extinf (item : json) (content_type : string) : result string :=
  h ← create_extinf_header item content_type;
  Ok (render h).

(** ** State, exceptions and the loops of [main] *)

(** One element of [all_entries]: the header and [stream['url']], which is
    whatever value the upstream document holds there. *)
Definition entry : Type := string * json.

Record state : Type := State {
  all_entries : list entry;
  requests : list string
}.

Definition init : state := State [] [].

(** A computation that reads and updates the state and may raise. *)
Definition M (A : Type) : Type := state → result A * state.

Global Instance M_ret : MRet M := λ A a st, (Ok a, st).
Global Instance M_bind : MBind M := λ A B f m st,
  match m st with
  | (Ok a, st') => f a st'
  | (Raise e, st') => (Raise e, st')
  end.

Definition lift {A} (r : result A) : M A := λ st, (r, st).

(** [all_entries.append(e)] *)
Definition append_entry (e : entry) : M unit := λ st,
  (Ok (), State (all_entries st ++ [e]) (requests st)).

(** [try: body except: pass]: whatever was appended before the exception
    stays appended. *)
Definition try_pass (body : M unit) : M unit := λ st,
  match body st with
  | (Ok _, st') => (Ok (), st')
  | (Raise _, st') => (Ok (), st')
  end.

(** [for x in l: body x] *)
Fixpoint for_each {A} (l : list A) (body : A → M unit) : M unit :=
  match l with
  | [] => mret ()
  | x :: l' => body x;; for_each l' body
  end.

(** A [for] loop that updates a local counter. *)
Fixpoint for_count {A} (l : list A) (count : nat) (body : A → nat → M nat) : M nat :=
  match l with
  | [] => mret count
  | x :: l' => count' ← body x count; for_count l' count' body
  end.

(** How one turn of a [while True] loop ends. *)
Inductive flow : Type :=
| Break
| Next (count : nat).

Definition nl : string := String "010"%char "".

Definition domestic_categories : list string :=
  [ "EX YU FILMOVI"; "EX YU SERIJE"; "EXYU SERIJE"; "EXYU SERIJE KOJE SE EMITUJU";
    "KLIK PREMIJERA"; "KLASICI"; "FILMSKI KLASICI"; "Bolji Zivot"; "Bela Ladja";
    "Policajac Sa Petlovog Brda"; "Slatke Muke" ].

(** [v in domestic_categories]: a list of strings holds no other value. *)
Definition in_domestic (v : json) : bool :=
  match v with
  | JStr s => bool_decide (s ∈ domestic_categories)
  | _ => false
  end.

Definition baubau_url : string :=
  "https://raw.githubusercontent.com/Zerr0-C00L/Balkan-On-Demand/main/data/baubau-content-full-backup.json".

Definition domaci : string := "https://domaci-flixx.vercel.app".

Definition movies_catalog_url (skip : nat) : string :=
  domaci +:+ "/catalog/movie/domaci_filmovi/skip=" +:+ pretty skip +:+ ".json".
Definition series_catalog_url (skip : nat) : string :=
  domaci +:+ "/catalog/series/domaci_serije/skip=" +:+ pretty skip +:+ ".json".
Definition meta_url (kind : string) (meta_id : json) : string :=
  domaci +:+ "/meta/" +:+ kind +:+ "/" +:+ Py.str meta_id +:+ ".json".
Definition stream_url (kind : string) (id : json) : string :=
  domaci +:+ "/stream/" +:+ kind +:+ "/" +:+ Py.str id +:+ ".json".

Section Pipeline.

(** The remote services. *)
Variable net : string → option json.

(** [fetch_json(url)]: never raises; a failure is Python's [None]. *)
Definition fetch_json (url : string) : M json := λ st,
  (Ok (default JNull (net url)), State (all_entries st) (requests st ++ [url])).

(** *** Source 1: the static catalog *)

(** The loop over the streams of a static-catalog item (lines 99 to 101
    and 108 to 110). *)
Definition emit_static_streams (item : json) (content_type : string)
    (streams : list json) : M unit :=
  for_each streams (λ stream,
    extinf ← lift (create_extinf item content_type);
    url ← lift (Py.index stream "url");
    append_entry (extinf, url)).

(** The body of the loop over [movies]. *)
Definition movie_body (movie : json) (movie_count : nat) : M nat :=
  category ← lift (Py.get movie "category");
  if negb (in_domestic category) then mret movie_count
  else
    streams ← lift (Py.get movie "streams");
    if Py.truthy streams then
      streams ← lift (Py.index movie "streams");
      stream_list ← lift (Py.iter streams);
      emit_static_streams movie "movie" stream_list;;
      mret (S movie_count)
    else mret movie_count.

(** The body of the loop over [series]. *)
Definition series_body (series : json) (series_count : nat) : M nat :=
  streams ← lift (Py.get series "streams");
  if Py.truthy streams then
    streams ← lift (Py.index series "streams");
    stream_list ← lift (Py.iter streams);
    emit_static_streams series "series" stream_list;;
    mret (S series_count)
  else mret series_count.

(** Lines 73 to 113; the result is [(movie_count, series_count)]. *)
Definition static_catalog : M (nat * nat) :=
  baubau_data ← fetch_json baubau_url;
  if Py.truthy baubau_data then
    movies ← lift (Py.get_default baubau_data "movies" (JArr []));
    movie_list ← lift (Py.iter movies);
    movie_count ← for_count movie_list 0 movie_body;
    series ← lift (Py.get_default baubau_data "series" (JArr []));
    series_list ← lift (Py.iter series);
    series_count ← for_count series_list 0 series_body;
    mret (movie_count, series_count)
  else mret (0, 0).

(** *** Sources 2 and 3: the paginated catalogs *)

(** The loop over the streams of a fetched stream list (lines 149 to 152
    and 197 to 200). *)
Definition emit_fetched_streams (item : json) (content_type : string)
    (streams : list json) : M unit :=
  for_each streams (λ stream,
    url ← lift (Py.get stream "url");
    if Py.truthy url then
      extinf ← lift (create_extinf item content_type);
      url ← lift (Py.index stream "url");
      append_entry (extinf, url)
    else mret ()).

(** Lines 145 to 152, and 193 to 200: fetch a stream list and emit it. *)
Definition fetch_and_emit (item : json) (kind : string) (id : json) : M unit :=
  stream_data ← fetch_json (stream_url kind id);
  if Py.truthy stream_data then
    streams ← lift (Py.get stream_data "streams");
    if Py.truthy streams then
      streams ← lift (Py.index stream_data "streams");
      stream_list ← lift (Py.iter streams);
      emit_fetched_streams item kind stream_list
    else mret ()
  else mret ().

(** The [try] block of source 2 (lines 138 to 152). *)
Definition movie_meta_try (meta_id : json) : M unit :=
  meta_detail ← fetch_json (meta_url "movie" meta_id);
  if Py.truthy meta_detail then
    meta ← lift (Py.get meta_detail "meta");
    if Py.truthy meta then
      item ← lift (Py.index meta_detail "meta");
      fetch_and_emit item "movie" meta_id
    else mret ()
  else mret ().

(** The body of the loop over the episodes of one series (lines 191 to
    200). *)
Definition episode_body (item : json) (video : json) : M unit :=
  video_id ← lift (Py.get_default video "id" (JStr ""));
  if Py.truthy video_id then fetch_and_emit item "series" video_id
  else mret ().

(** [for video in item['videos']] (line 190). *)
Definition episodes_loop (item : json) (videos : list json) : M unit :=
  for_each videos (episode_body item).

(** The [try] block of source 3 (lines 182 to 200). *)
Definition series_meta_try (meta_id : json) : M unit :=
  meta_detail ← fetch_json (meta_url "series" meta_id);
  if Py.truthy meta_detail then
    meta ← lift (Py.get meta_detail "meta");
    if Py.truthy meta then
      item ← lift (Py.index meta_detail "meta");
      videos ← lift (Py.get item "videos");
      if Py.truthy videos then
        videos ← lift (Py.index item "videos");
        video_list ← lift (Py.iter videos);
        episodes_loop item video_list
      else mret ()
    else mret ()
  else mret ().

(** The body of [for meta in metas] (lines 133 to 154 and 178 to 202):
    [meta.get] is outside the [try], the rest inside. *)
Definition meta_body (meta_try : json → M unit) (meta : json) : M unit :=
  meta_id ← lift (Py.get_default meta "id" (JStr ""));
  if Py.truthy meta_id then try_pass (meta_try meta_id)
  else mret ().

(** One turn of a [while True] loop (lines 120 to 156 and 165 to 204).
    The two loops differ in the catalog URL and in the [try] block. *)
Definition catalog_page (catalog_url : nat → string) (meta_try : json → M unit)
    (skip count : nat) : M flow :=
  page ← fetch_json (catalog_url skip);
  if negb (Py.truthy page) then mret Break
  else
    metas ← lift (Py.get page "metas");
    if negb (Py.truthy metas) then mret Break
    else
      metas ← lift (Py.index page "metas");
      if negb (Py.truthy metas) then mret Break
      else
        n ← lift (Py.len metas);
        let count := count + n in
        meta_list ← lift (Py.iter metas);
        for_each meta_list (meta_body meta_try);;
        mret (Next count).

(** The [while True] loop, with [fuel] bounding the number of turns:
    [None] when the fuel runs out.  The result is the final count. *)
Fixpoint paginate (catalog_url : nat → string) (meta_try : json → M unit)
    (fuel skip count : nat) (st : state) : option (result nat * state) :=
  match fuel with
  | O => None
  | S fuel' =>
      match catalog_page catalog_url meta_try skip count st with
      | (Ok Break, st') => Some (Ok count, st')
      | (Ok (Next count'), st') =>
          paginate catalog_url meta_try fuel' (skip + 100) count' st'
      | (Raise e, st') => Some (Raise e, st')
      end
  end.

Definition domaci_movies (fuel : nat) : state → option (result nat * state) :=
  paginate movies_catalog_url movie_meta_try fuel 0 0.

Definition domaci_series (fuel : nat) : state → option (result nat * state) :=
  paginate series_catalog_url series_meta_try fuel 0 0.

End Pipeline.

(** ** Deduplication, writing and the summary *)

(** What a [set] compares: [None], an integer (a Boolean is the integer 0
    or 1 there) or a string. *)
Inductive pykey : Type :=
| KNone
| KInt (n : Z)
| KStr (s : string).

Global Instance pykey_eq_dec : EqDecision pykey.
Proof. solve_decision. Defined.

Global Instance pykey_countable : Countable pykey.
Proof.
  refine (inj_countable'
    (λ k, match k with
          | KNone => None
          | KInt n => Some (inl n)
          | KStr s => Some (inr s)
          end)
    (λ x, match x with
          | None => KNone
          | Some (inl n) => KInt n
          | Some (inr s) => KStr s
          end) _).
  by intros [].
Defined.

(** Hashing a value for a [set]: lists and dicts are unhashable. *)
Definition hash_key (v : json) : result pykey :=
  match v with
  | JNull => Ok KNone
  | JBool b => Ok (KInt (if b then 1 else 0))
  | JInt n => Ok (KInt n)
  | JStr s => Ok (KStr s)
  | JArr _ | JObj _ => Raise TypeError
  end.

(** Lines 211 to 216: the loop over [all_entries], with [seen_urls] and
    [unique_entries] as they stand before the entries still to visit. *)
Fixpoint dedup_loop (entries : list entry) (seen_urls : gset pykey)
    (unique_entries : list entry) : result (list entry) :=
  match entries with
  | [] => Ok unique_entries
  | (extinf, url) :: rest =>
      k ← hash_key url;
      if bool_decide (k ∈ seen_urls)
      then dedup_loop rest seen_urls unique_entries
      else dedup_loop rest ({[k]} ∪ seen_urls) (unique_entries ++ [(extinf, url)])
  end.

Definition dedup (entries : list entry) : result (list entry) :=
  dedup_loop entries ∅ [].

(** Lines 226 to 229: the text written to the output file. *)
Definition write_entry (e : entry) : string :=
  (fst e +:+ nl) +:+ (Py.str (snd e) +:+ nl).

Fixpoint write_entries (unique_entries : list entry) : string :=
  match unique_entries with
  | [] => ""
  | e :: rest => write_entry e +:+ write_entries rest
  end.

Definition write_m3u (unique_entries : list entry) : string :=
  ("#EXTM3U" +:+ nl) +:+ write_entries unique_entries.

(** [sum(1 for e, _ in unique_entries if needle in e)] *)
Definition count_with (needle : string) (unique_entries : list entry) : nat :=
  length (filter (λ e, PyStr.contains needle (fst e) = true) unique_entries).

(** [a // b] on integers. *)
Definition floordiv (a b : Z) : result Z :=
  if (b =? 0)%Z then Raise ZeroDivisionError else Ok (a `div` b)%Z.

(** The percentage printed on line 243. *)
Definition tmdb_percent (unique_entries : list entry) : result Z :=
  let with_tmdb := count_with ("tvg-id=" +:+ String PyStr.dq "") unique_entries in
  match unique_entries with
  | _ :: _ => floordiv (Z.of_nat with_tmdb * 100) (Z.of_nat (length unique_entries))
  | [] => Ok 0%Z
  end.

(** What a run leaves behind: the file and the printed numbers. *)
Record report : Type := Report {
  loaded : nat * nat;
  domaci_movie_count : nat;
  domaci_series_count : nat;
  total_entries : nat;
  unique_entries : list entry;
  output : string;
  movies : nat;
  series : nat;
  with_tmdb : nat;
  percent : Z
}.

(** Lines 208 to 243, on the entries the three sources collected, when the
    output file can be opened and written; [finish_on] below has the other
    case. *)
Definition finish (loaded : nat * nat) (c2 c3 : nat) (entries : list entry) : result report :=
  unique ← dedup entries;
  pc ← tmdb_percent unique;
  Ok (Report loaded c2 c3 (length entries) unique (write_m3u unique)
        (count_with (group_title_part "Movies") unique)
        (count_with (group_title_part "Series") unique)
        (count_with ("tvg-id=" +:+ String PyStr.dq "") unique)
        pc).

(** [main()]: [None] when a paginated loop is still running after [fuel]
    turns; an exception that reaches [main] ends the run.  The output file
    can be opened and written here; [main_on] below has the other case. *)
Definition main (net : string → option json) (fuel : nat) : option (result report) :=
  match static_catalog net init with
  | (Raise e, _) => Some (Raise e)
  | (Ok loaded, st1) =>
      match domaci_movies net fuel st1 with
      | None => None
      | Some (Raise e, _) => Some (Raise e)
      | Some (Ok c2, st2) =>
          match domaci_series net fuel st2 with
          | None => None
          | Some (Raise e, _) => Some (Raise e)
          | Some (Ok c3, st3) => Some (finish loaded c2 c3 (all_entries st3))
          end
      end
  end.

(** *** The output file on a file system *)

(** Lines 225 to 229 stand outside every [try]: [disk] is the outcome of
    [open(output_file, 'w')] and of the calls of [f.write], [Raise OSError]
    when the file cannot be opened or written (a missing [channels]
    directory raises [FileNotFoundError], which is an [OSError]).  The
    lines printed on the console are not modelled. *)
Definition write_output (disk : result unit) (text : string) : result string :=
  _ ← disk; Ok text.

(** Lines 208 to 243 in their order: the duplicates are removed, then the
    file is written, then the summary is computed. *)
Definition finish_on (disk : result unit) (loaded : nat * nat) (c2 c3 : nat)
    (entries : list entry) : result report :=
  unique ← dedup entries;
  written ← write_output disk (write_m3u unique);
  pc ← tmdb_percent unique;
  Ok (Report loaded c2 c3 (length entries) unique written
        (count_with (group_title_part "Movies") unique)
        (count_with (group_title_part "Series") unique)
        (count_with ("tvg-id=" +:+ String PyStr.dq "") unique)
        pc).

(** [main()] on a file system. *)
Definition main_on (disk : result unit) (net : string → option json) (fuel : nat)
    : option (result report) :=
  match static_catalog net init with
  | (Raise e, _) => Some (Raise e)
  | (Ok loaded, st1) =>
      match domaci_movies net fuel st1 with
      | None => None
      | Some (Raise e, _) => Some (Raise e)
      | Some (Ok c2, st2) =>
          match domaci_series net fuel st2 with
          | None => None
          | Some (Raise e, _) => Some (Raise e)
          | Some (Ok c3, st3) => Some (finish_on disk loaded c2 c3 (all_entries st3))
          end
      end
  end.

(** ** Notions used to state the properties *)

(** The state with more entries, or one more request. *)
Definition add_entries (st : state) (new : list entry) : state :=
  State (all_entries st ++ new) (requests st).

Definition add_request (st : state) (url : string) : state :=
  State (all_entries st) (requests st ++ [url]).

(** The value of [stream['url']] for each stream of a list. *)
Definition urls_of (streams urls : list json) : Prop :=
  Forall2 (λ stream url, Py.index stream "url" = Ok url) streams urls.

(** The part that [movie_body] and [series_body] share: lines 98 to 102
    and 107 to 111. *)
Definition static_item (item : json) (content_type : string) (count : nat) : M nat :=
  streams ← lift (Py.get item "streams");
  if Py.truthy streams then
    streams ← lift (Py.index item "streams");
    stream_list ← lift (Py.iter streams);
    emit_static_streams item content_type stream_list;;
    mret (S count)
  else mret count.

(** What a computation may do to the state ([R]) and which exceptions it may
    raise ([E]). *)
Definition within (R : relation state) (E : pyexn → Prop) {A} (m : M A) : Prop :=
  ∀ st, R st (m st).2 ∧ ∀ e, (m st).1 = Raise e → E e.

(** An exception other than [ZeroDivisionError]. *)
Definition not_zero_division (e : pyexn) : Prop := e ≠ ZeroDivisionError.

(** The header of an entry begins with the fixed prefix token. *)
Definition header_prefixed (e : entry) : Prop :=
  PyStr.startswith "#EXTINF:-1" e.1 = true.

(** Requests for a page of a paginated catalog. *)
Definition is_catalog_request (url : string) : bool :=
  PyStr.startswith (domaci +:+ "/catalog/") url.

Definition catalog_requests (st : state) : list string :=
  filter (λ url, is_catalog_request url = true) (requests st).

(** The state moved on by requests that are not for a catalog page. *)
Definition only_item_requests (st st' : state) : Prop :=
  ∃ extra, requests st' = requests st ++ extra
           ∧ Forall (λ url, is_catalog_request url = false) extra.

(** The entries keep prefixed headers. *)
Definition keeps_prefixed (st st' : state) : Prop :=
  Forall header_prefixed (all_entries st) → Forall header_prefixed (all_entries st').

(** The lines of the output file, in the order they are written, and the
    text they make: each line is followed by a line feed. *)
Definition written_lines (unique_entries : list entry) : list string :=
  "#EXTM3U" :: (unique_entries ≫= λ e, [e.1; Py.str e.2]).

Fixpoint unlines (lines : list string) : string :=
  match lines with
  | [] => ""
  | line :: rest => (line +:+ nl) +:+ unlines rest
  end.

(** The lines of a text: the runs of characters that end at a line feed
    (and a last run without one, when the text does not end in a line feed). *)
Fixpoint split_lines (text : string) : list string :=
  match text with
  | "" => []
  | String c rest =>
      if bool_decide (c = "010"%char) then "" :: split_lines rest
      else match split_lines rest with
           | [] => [String c ""]
           | line :: lines => String c line :: lines
           end
  end.

Definition one_line (s : string) : Prop := Py.has_char "010"%char s = false.

Definition tvg_id_marker : string := "tvg-id=" +:+ String PyStr.dq "".

(** The stream document of an episode gives no stream: nothing was fetched
    (or a falsy document), or it is a record whose [streams] is absent or
    empty. *)
Definition no_streams (stream_data : json) : Prop :=
  Py.truthy stream_data = false
  ∨ ∃ fields, stream_data = JObj fields ∧ Py.truthy (field fields "streams") = false.

(** *** Pagination *)

(** The page that the request with cursor [skip] returns. *)
Definition page_at (net : string → option json) (catalog_url : nat → string)
    (skip : nat) : json :=
  default JNull (net (catalog_url skip)).

(** The page ends the loop: the fetch gave nothing (or a falsy document), or
    its [metas] is absent or empty. *)
Definition ends_pagination (page : json) : bool :=
  negb (Py.truthy page)
  || match Py.get page "metas" with
     | Ok metas => negb (Py.truthy metas)
     | Raise _ => false
     end.

(** The page lists the items [metas]: a non-empty list of records. *)
Definition listing (page : json) (metas : list json) : Prop :=
  ∃ fields, page = JObj fields
            ∧ Py.lookup_field "metas" fields = Some (JArr metas)
            ∧ metas ≠ []
            ∧ Forall (λ meta, ∃ meta_fields, meta = JObj meta_fields) metas.

(** The urls of [n] successive pages, from the cursor [skip] on. *)
Fixpoint page_urls (catalog_url : nat → string) (skip n : nat) : list string :=
  match n with
  | O => []
  | S n' => catalog_url skip :: page_urls catalog_url (skip + 100) n'
  end.

(** The two paginated sources. *)
Inductive paged : Type :=
| DomaciMovies
| DomaciSeries.

Definition catalog_url_of (source : paged) : nat → string :=
  match source with
  | DomaciMovies => movies_catalog_url
  | DomaciSeries => series_catalog_url
  end.

Definition run_paged (net : string → option json) (source : paged) (fuel : nat)
    : state → option (result nat * state) :=
  match source with
  | DomaciMovies => domaci_movies net fuel
  | DomaciSeries => domaci_series net fuel
  end.

(** *** The items of the pages *)

(** Requests for the detail document of a catalog item, and the requests
    that show the course of a paginated loop: those for a page and those
    for the detail document of an item. *)
Definition is_detail_request (url : string) : bool :=
  PyStr.startswith (domaci +:+ "/meta/") url.

Definition is_loop_request (url : string) : bool :=
  is_catalog_request url || is_detail_request url.

Definition loop_requests (st : state) : list string :=
  filter (λ url, is_loop_request url = true) (requests st).

(** The state moved on without any such request. *)
Definition keeps_loop_requests (st st' : state) : Prop :=
  loop_requests st' = loop_requests st.

Definition kind_of (source : paged) : string :=
  match source with
  | DomaciMovies => "movie"
  | DomaciSeries => "series"
  end.

(** The id of a listed item, the empty string when it has none. *)
Definition item_id (meta : json) : json :=
  match meta with
  | JObj fields => default (JStr "") (Py.lookup_field "id" fields)
  | _ => JStr ""
  end.

Definition has_id (meta : json) : Prop := Py.truthy (item_id meta) = true.

(** The detail requests for the items of a page: one for each item that has
    an id, in the order of the page. *)
Definition detail_urls (kind : string) (metas : list json) : list string :=
  meta_url kind <$> filter (λ id, Py.truthy id = true) (item_id <$> metas).

(** The page and detail requests of a loop over pages that list
    [listings], from the cursor [skip] on: the request for a page, the
    detail requests for its items, then the next page; at the end the
    request for the page that ends the loop. *)
Fixpoint page_trace (catalog_url : nat → string) (kind : string) (skip : nat)
    (listings : list (list json)) : list string :=
  match listings with
  | [] => [catalog_url skip]
  | metas :: rest =>
      catalog_url skip
        :: detail_urls kind metas ++ page_trace catalog_url kind (skip + 100) rest
  end.

(** ** The deduplicator's contract, in the words of the specification *)

(** Entries whose urls are strings, as the data model has them. *)
Definition as_entries (es : list (string * string)) : list entry :=
  map (λ e, (e.1, JStr e.2)) es.

(** The first occurrence of each distinct url, in the order of the input:
    keep the first entry, and of the rest those with another url. *)
Fixpoint first_occurrences (es : list (string * string)) : list (string * string) :=
  match es with
  | [] => []
  | e :: rest => e :: filter (λ e', e'.2 ≠ e.2) (first_occurrences rest)
  end.

(** ** Sample documents, used to run the definitions *)

Definition poster_999 : json := JStr "https://image.tmdb.org/t/p/w500/999.jpg".

Definition item_tt123 : list (string * json) :=
  [("id", JStr "tt123"); ("name", JStr "Foo"); ("poster", poster_999)].

Definition item_tt_only : list (string * json) :=
  [("id", JStr "tt"); ("poster", poster_999)].

Definition header_tt_only : header :=
  Header ["#EXTINF:-1"; tvg_name_part (JStr "Unknown"); tvg_logo_part poster_999;
          group_title_part "Movies"] "Unknown".

Definition item_tt1tt2 : list (string * json) := [("id", JStr "tt1tt2")].

Definition item_poster_only : list (string * json) :=
  [("id", JStr "bau-7"); ("name", JStr "Bar"); ("poster", poster_999); ("year", JInt 1984)].

(** A static catalog with a domestic movie, a movie of another category and
    a series that repeats a url of the movie; one paginated movie whose
    second stream has no url and whose third repeats a url. *)
Definition net_sample (url : string) : option json :=
  if bool_decide (url = baubau_url)
  then Some (JObj [("movies",
                    JArr [JObj [("id", JStr "tt1"); ("name", JStr "A");
                                ("category", JStr "EX YU FILMOVI");
                                ("streams", JArr [JObj [("url", JStr "u1")];
                                                  JObj [("url", JStr "u2")]])];
                          JObj [("id", JStr "tt2"); ("name", JStr "B");
                                ("category", JStr "Drugo");
                                ("streams", JArr [JObj [("url", JStr "u3")]])]]);
                   ("series",
                    JArr [JObj [("name", JStr "S");
                                ("streams", JArr [JObj [("url", JStr "u1")];
                                                  JObj [("url", JStr "u4")]])]])])
  else if bool_decide (url = movies_catalog_url 0)
  then Some (JObj [("metas", JArr [JObj [("id", JStr "m1")]; JObj []])])
  else if bool_decide (url = meta_url "movie" (JStr "m1"))
  then Some (JObj [("meta", JObj [("id", JStr "77"); ("name", JStr "M1")])])
  else if bool_decide (url = stream_url "movie" (JStr "m1"))
  then Some (JObj [("streams", JArr [JObj [("url", JStr "u5")]; JObj [];
                                     JObj [("url", JStr "u2")]])])
  else None.

Definition header_of_name (tmdb_id name group : string) : string :=
  "#EXTINF:-1 tvg-id=" +:+ PyStr.quoted tmdb_id +:+ " tvg-name=" +:+ PyStr.quoted name
    +:+ " group-title=" +:+ PyStr.quoted group +:+ ", " +:+ name.

Definition header_S : string :=
  "#EXTINF:-1 tvg-name=" +:+ PyStr.quoted "S"
    +:+ " group-title=" +:+ PyStr.quoted "Series" +:+ ", S".

Definition item_empty_name : list (string * json) := [("name", JStr "")].

Definition streams_u1_u2 : json :=
  JArr [JObj [("url", JStr "u1")]; JObj [("url", JStr "u2")]].

Definition movie_two_streams : list (string * json) :=
  [("id", JStr "tt1"); ("name", JStr "A"); ("category", JStr "EX YU FILMOVI");
   ("streams", streams_u1_u2)].

Definition movie_drugo : list (string * json) :=
  [("id", JStr "tt2"); ("name", JStr "B"); ("category", JStr "Drugo");
   ("streams", streams_u1_u2)].

Definition header_A : string :=
  "#EXTINF:-1 tvg-id=" +:+ PyStr.quoted "1" +:+ " tvg-name=" +:+ PyStr.quoted "A"
    +:+ " group-title=" +:+ PyStr.quoted "Movies" +:+ ", A".

Definition stream_list_of (url : string) : json :=
  JObj [("streams", JArr [JObj [("url", JStr url)]])].

Definition series_s1 : json :=
  JObj [("name", JStr "S1");
        ("videos", JArr [JObj [("id", JStr "e1")]; JObj [("id", JStr "e2")];
                         JObj [("id", JStr "e3")]])].

Definition header_S1 : string :=
  "#EXTINF:-1 tvg-name=" +:+ PyStr.quoted "S1"
    +:+ " group-title=" +:+ PyStr.quoted "Series" +:+ ", S1".

(** A series with three episodes; the stream list of the second holds a
    number where a stream record is expected.  (An episode [e0], which the
    series does not list, has an empty stream list.) *)
Definition net_bad_episode (url : string) : option json :=
  if bool_decide (url = series_catalog_url 0)
  then Some (JObj [("metas", JArr [JObj [("id", JStr "s1")]])])
  else if bool_decide (url = meta_url "series" (JStr "s1"))
  then Some (JObj [("meta", series_s1)])
  else if bool_decide (url = stream_url "series" (JStr "e1")) then Some (stream_list_of "v1")
  else if bool_decide (url = stream_url "series" (JStr "e2"))
  then Some (JObj [("streams", JArr [JInt 5])])
  else if bool_decide (url = stream_url "series" (JStr "e3")) then Some (stream_list_of "v3")
  else if bool_decide (url = stream_url "series" (JStr "e0"))
  then Some (JObj [("streams", JArr [])])
  else None.

(** Fifty listed movies with ids, then a page with an empty [metas]. *)
Definition fifty_items : list json :=
  (λ i : nat, JObj [("id", JStr ("m" +:+ pretty i))]) <$> seq 0 50.

Definition net_fifty (url : string) : option json :=
  if bool_decide (url = movies_catalog_url 0)
  then Some (JObj [("metas", JArr fifty_items)])
  else if bool_decide (url = movies_catalog_url 100)
  then Some (JObj [("metas", JArr [])])
  else None.

(** The services are down: every fetch fails. *)
Definition net_down (url : string) : option json := None.

Definition empty_report : report :=
  Report (0, 0) 0 0 0 [] ("#EXTM3U" +:+ nl) 0 0 0 0.

Definition report_s1 : report :=
  Report (0, 0) 0 1 1 [(header_S1, JStr "v1")] (unlines ["#EXTM3U"; header_S1; "v1"]) 0 1 0 0.

(** ** Notions used beyond the claims *)

(** A non-empty string of [\d] characters. *)
Definition decimal_string (d : string) : Prop :=
  d ≠ "" ∧ PyStr.all_chars PyStr.decimal_char d = true.

Definition is_string (v : json) : Prop := ∃ s, v = JStr s.

Global Instance is_string_dec v : Decision (is_string v).
Proof.
  destruct v; try (right; intros [? ?]; discriminate). left. by eexists.
Defined.

(** A field that is missing or holds a string. *)
Definition string_or_absent (fields : list (string * json)) (k : string) : Prop :=
  Py.lookup_field k fields = None ∨ ∃ s, Py.lookup_field k fields = Some (JStr s).

(** The identifier gives no external ID: it is falsy, or a string that
    neither begins with [tt] nor is numeric. *)
Definition unusable_id (fields : list (string * json)) : Prop :=
  Py.truthy (field fields "id") = false
  ∨ ∃ s, field fields "id" = JStr s
         ∧ PyStr.startswith "tt" s = false ∧ PyStr.isdigit s = false.

(** The group label that [create_extinf] writes for a content type. *)
Definition group_of (content_type : string) : string :=
  if bool_decide (content_type = "series") then "Series" else "Movies".

Definition item_plain : list (string * json) :=
  [("id", JStr "tt7"); ("name", JStr "Foo"); ("poster", poster_999); ("year", JStr "1999")].

(** The state moved on by appending: the entries added satisfy [P], and
    nothing that was there is removed or reordered. *)
Definition grows_by (P : entry → Prop) (st st' : state) : Prop :=
  (∃ new, all_entries st' = all_entries st ++ new ∧ Forall P new)
  ∧ (∃ more, requests st' = requests st ++ more).

(** The header of the entry is one that [create_extinf] returned. *)
Definition built (e : entry) : Prop :=
  ∃ item content_type, create_extinf item content_type = Ok e.1.

(** An entry of the paginated sources: a built header and a truthy url. *)
Definition fetched (e : entry) : Prop := built e ∧ Py.truthy e.2 = true.

(** A value that a [set] refuses: a list or a dict. *)
Definition unhashable (v : json) : Prop :=
  match v with
  | JArr _ | JObj _ => True
  | _ => False
  end.

(** The state moved on without a request. *)
Definition same_requests (st st' : state) : Prop := requests st' = requests st.

(** The state moved on by appending entries, at least [n] of them. *)
Definition appended_at_least (n : nat) (st st' : state) : Prop :=
  ∃ new, st' = add_entries st new ∧ n ≤ length new.

Definition is_record (v : json) : Prop := ∃ fields, v = JObj fields.

(** * Properties *)

(** ** Strings *)

Lemma replace_tt_prefix r :
  PyStr.replace "tt" "" ("tt" +:+ r) = PyStr.replace "tt" "" r.
Proof. reflexivity. Qed.

Lemma replace_tt_absent r :
  PyStr.contains "tt" r = false → PyStr.replace "tt" "" r = r.
Proof.
  unfold PyStr.replace. induction r as [|c r IH]; [done|].
  intros H. cbn [PyStr.contains] in H.
  apply orb_false_iff in H as [Hhere Hlater].
  cbn [PyStr.replace_go]. rewrite Hhere. f_equal. by apply IH.
Qed.

Lemma digits_hold_no_tt s :
  PyStr.all_chars PyStr.digit_char s = true → PyStr.contains "tt" s = false.
Proof.
  induction s as [|c s IH]; [done|].
  cbn [PyStr.all_chars PyStr.contains]. intros [Hc Hs]%andb_true_iff.
  rewrite (IH Hs), orb_false_r. cbn [PyStr.startswith].
  destruct (decide ("t"%char = c)) as [<-|]; [by vm_compute in Hc|done].
Qed.

Lemma isdigit_replace_tt s :
  PyStr.isdigit s = true → PyStr.replace "tt" "" s = s.
Proof.
  intros H. apply replace_tt_absent, digits_hold_no_tt.
  by destruct s.
Qed.

Lemma startswith_tt_inv s :
  PyStr.startswith "tt" s = true → ∃ r, s = "tt" +:+ r.
Proof.
  destruct s as [|a [|b r]]; cbn; try done.
  - by destruct (decide _).
  - destruct (decide ("t"%char = a)) as [<-|]; [|done].
    destruct (decide ("t"%char = b)) as [<-|]; [|done]. by exists r.
Qed.

(** ** The definitions at work *)

Example replace_examples :
  PyStr.replace "tt" "" "tt123" = "123"
  ∧ PyStr.replace "tt" "" "ttt" = "t"
  ∧ PyStr.replace "tt" "" "tt1tt2" = "12"
  ∧ PyStr.replace "ab" "xyz" "cababac" = "cxyzxyzac"
  ∧ PyStr.replace "" "-" "abc" = "-a-b-c-".
Proof. repeat split. Qed.

Example search_jpg_stem_examples :
  PyStr.search_jpg_stem "https://image.tmdb.org/t/p/w500/999.jpg" = Some "999"
  ∧ PyStr.search_jpg_stem "https://image.tmdb.org/t/p/w500/abc.jpg" = None
  ∧ PyStr.search_jpg_stem "https://image.tmdb.org/12.png/34x.jpg/56.jpg/78.jpg" = Some "56".
Proof. repeat split. Qed.

Example isdigit_examples :
  PyStr.isdigit "0129" = true ∧ PyStr.isdigit "" = false ∧ PyStr.isdigit "12a" = false.
Proof. repeat split. Qed.

Example str_examples :
  Py.str (JInt (-5)) = "-5" ∧ Py.str JNull = "None" ∧ Py.str (JBool true) = "True"
  ∧ Py.str (JArr [JStr "a"; JInt 1; JObj [("k", JNull)]]) = "['a', 1, {'k': None}]".
Proof. repeat split. Qed.

Example create_extinf_examples :
  create_extinf (JObj item_tt123) "movie"
  = Ok ("#EXTINF:-1 tvg-id=" +:+ PyStr.quoted "123" +:+ " tvg-name=" +:+ PyStr.quoted "Foo"
          +:+ " tvg-logo=" +:+ PyStr.quoted "https://image.tmdb.org/t/p/w500/999.jpg"
          +:+ " group-title=" +:+ PyStr.quoted "Movies" +:+ ", Foo")
  ∧ create_extinf (JObj item_poster_only) "series"
    = Ok ("#EXTINF:-1 tvg-id=" +:+ PyStr.quoted "999" +:+ " tvg-name=" +:+ PyStr.quoted "Bar"
            +:+ " tvg-logo=" +:+ PyStr.quoted "https://image.tmdb.org/t/p/w500/999.jpg"
            +:+ " group-title=" +:+ PyStr.quoted "Series" +:+ ", Bar (1984)")
  ∧ create_extinf (JObj [("id", JInt 5)]) "movie" = Raise AttributeError
  ∧ create_extinf (JObj [("poster", JInt 5)]) "movie" = Raise TypeError
  ∧ create_extinf (JArr []) "movie" = Raise AttributeError.
Proof. repeat split. Qed.

(** A whole run: the movie of another category is dropped, the urls seen
    before are dropped with their headers, the stream without url is passed
    over. *)
Example main_example :
  ∃ r, main net_sample 2 = Some (Ok r)
       ∧ unique_entries r
         = [(header_of_name "1" "A" "Movies", JStr "u1");
            (header_of_name "1" "A" "Movies", JStr "u2");
            (header_S, JStr "u4");
            (header_of_name "77" "M1" "Movies", JStr "u5")]
       ∧ total_entries r = 6
       ∧ (loaded r, domaci_movie_count r, domaci_series_count r) = ((1, 1), 2, 0)
       ∧ (movies r, series r, with_tmdb r, percent r) = (3, 1, 3, 75%Z)
       ∧ main net_sample 1 = None.
Proof. eexists. split; [vm_compute; reflexivity|]. repeat split. Qed.

(** ** Field lookups on objects *)

Lemma get_obj fields k : Py.get (JObj fields) k = Ok (field fields k).
Proof. unfold Py.get, Py.get_default, field. by destruct (Py.lookup_field k fields). Qed.

Lemma index_truthy fields k :
  Py.truthy (field fields k) = true → Py.index (JObj fields) k = Ok (field fields k).
Proof. unfold Py.index, field. by destruct (Py.lookup_field k fields). Qed.

Lemma get_ok_obj item k v : Py.get item k = Ok v → ∃ fields, item = JObj fields.
Proof. destruct item; try done. eauto. Qed.

(** ** The header builder *)

Lemma create_extinf_header_obj fields content_type tmdb_id :
  resolve_tmdb_id (JObj fields) = Ok tmdb_id →
  create_extinf_header (JObj fields) content_type
  = Ok (header_of fields content_type tmdb_id).
Proof.
  intros Hid. unfold create_extinf_header, header_of. rewrite Hid. cbn [mbind result_bind].
  change (Py.get_default (JObj fields) "name" (JStr "Unknown")) with (Ok (name_of fields)).
  cbn [mbind result_bind]. rewrite !get_obj. cbn [mbind result_bind].
  destruct (Py.truthy (field fields "poster")) eqn:Hposter;
    destruct (Py.truthy (field fields "year")) eqn:Hyear;
    rewrite ?(index_truthy _ _ Hposter), ?(index_truthy _ _ Hyear);
    cbn [mbind result_bind]; destruct (tmdb_truthy tmdb_id); reflexivity.
Qed.

Lemma create_extinf_header_inv item content_type h :
  create_extinf_header item content_type = Ok h →
  ∃ fields tmdb_id, item = JObj fields ∧ resolve_tmdb_id item = Ok tmdb_id
                    ∧ h = header_of fields content_type tmdb_id.
Proof.
  intros H. destruct item as [| | | | |fields]; try done.
  destruct (resolve_tmdb_id (JObj fields)) as [tmdb_id|e] eqn:Hid.
  - rewrite (create_extinf_header_obj _ _ _ Hid) in H. injection H as <-. eauto.
  - unfold create_extinf_header in H. by rewrite Hid in H.
Qed.

Lemma resolve_own_id fields s :
  Py.lookup_field "id" fields = Some (JStr s) →
  PyStr.startswith "tt" s || PyStr.isdigit s = true →
  resolve_tmdb_id (JObj fields) = Ok (Some (PyStr.replace "tt" "" s)).
Proof.
  intros Hid Huse. unfold resolve_tmdb_id. rewrite !get_obj. cbn [mbind result_bind].
  assert (field fields "id" = JStr s) as Hf by (unfold field; by rewrite Hid).
  assert (Py.truthy (field fields "id") = true) as Ht.
  { rewrite Hf. destruct s; [done|reflexivity]. }
  rewrite Ht, (index_truthy _ _ Ht), Hf. cbn [mbind result_bind Py.startswith Py.isdigit].
  destruct (PyStr.startswith "tt" s); cbn in Huse |- *; [done|].
  by rewrite Huse.
Qed.

Lemma part_prefixes v :
  tvg_id_part v ≠ "#EXTINF:-1"
  ∧ (∀ n, tvg_id_part v ≠ tvg_name_part n)
  ∧ (∀ p, tvg_id_part v ≠ tvg_logo_part p)
  ∧ (∀ g, tvg_id_part v ≠ group_title_part g).
Proof. repeat split; intros; discriminate. Qed.

Lemma tvg_id_part_inj v w : tvg_id_part v = tvg_id_part w → v = w.
Proof.
  unfold tvg_id_part, PyStr.quoted. intros H. injection H as H. clear -H.
  revert w H. induction v as [|a v IH]; intros [|b w] H; cbn in H; try done.
  - destruct w; discriminate.
  - destruct v; discriminate.
  - injection H as -> H. f_equal. by apply IH.
Qed.

(** A tvg-id part is in the header exactly when [tmdb_id] is a non-empty
    string, and then it carries that string. *)
Lemma tvg_id_in_header fields content_type tmdb_id v :
  tvg_id_part v ∈ parts (header_of fields content_type tmdb_id)
  ↔ tmdb_truthy tmdb_id = true ∧ tmdb_id = Some v.
Proof.
  destruct (part_prefixes v) as (H0 & Hn & Hl & Hg).
  unfold header_of; cbn [parts]. rewrite !elem_of_app, !list_elem_of_singleton.
  split.
  - intros [E|[Hin|[E|[Hin|E]]]].
    + by destruct H0.
    + destruct (tmdb_truthy tmdb_id) eqn:Ht; [|by apply elem_of_nil in Hin].
      apply list_elem_of_singleton in Hin. split; [done|].
      destruct tmdb_id as [w|]; [|done]. f_equal. symmetry. by apply tvg_id_part_inj.
    + by destruct (Hn _ E).
    + destruct (Py.truthy _); [|by apply elem_of_nil in Hin].
      apply list_elem_of_singleton in Hin. by destruct (Hl _ Hin).
    + by destruct (Hg _ E).
  - intros [Ht ->]. rewrite Ht. right; left. by apply list_elem_of_singleton.
Qed.

(** ** C2: the external-ID field taken from the item's own identifier *)

(** C2, as amended.  When the identifier of an item is [tt] followed by a
    non-empty remainder that holds no further [tt], the second part of the
    header is the tvg-id field with that remainder as its value, whatever
    the poster is; when the identifier is purely numeric, the field holds
    the identifier unchanged. *)
Theorem tvg_id_strips_leading_tt fields content_type s r :
  Py.lookup_field "id" fields = Some (JStr s) →
  (s = "tt" +:+ r ∧ r ≠ "" ∧ PyStr.contains "tt" r = false)
  ∨ (PyStr.isdigit s = true ∧ r = s) →
  ∃ h, create_extinf_header (JObj fields) content_type = Ok h
       ∧ parts h !! 1 = Some (tvg_id_part r).
Proof.
  intros Hid Hcase.
  assert (PyStr.startswith "tt" s || PyStr.isdigit s = true
          ∧ PyStr.replace "tt" "" s = r ∧ r ≠ "") as (Huse & Hrep & Hne).
  { destruct Hcase as [(-> & Hne & Hno)|[Hdig ->]].
    - split; [reflexivity|]. split; [|done].
      rewrite replace_tt_prefix. by apply replace_tt_absent.
    - rewrite Hdig, orb_true_r. split; [done|]. split; [by apply isdigit_replace_tt|].
      by destruct s. }
  exists (header_of fields content_type (Some r)). split.
  - apply create_extinf_header_obj. rewrite <- Hrep. by apply resolve_own_id.
  - unfold header_of. cbn [parts tmdb_truthy]. by destruct r.
Qed.

Lemma tvg_id_strips_leading_tt_witness :
  ∃ h, create_extinf_header (JObj item_tt123) "movie" = Ok h
       ∧ parts h !! 1 = Some (tvg_id_part "123").
Proof.
  apply (tvg_id_strips_leading_tt item_tt123 "movie" "tt123" "123").
  - reflexivity.
  - left. repeat split. discriminate.
Defined.

(** C2, as stated, fails: the identifier [tt] gives a header without any
    tvg-id field, and [tt1tt2] gives the value [12], not [1tt2]. *)
Lemma tvg_id_not_prefix_removal :
  create_extinf_header (JObj item_tt_only) "movie"
  = Ok (Header ["#EXTINF:-1"; tvg_name_part (JStr "Unknown"); tvg_logo_part poster_999;
                group_title_part "Movies"] "Unknown")
  ∧ create_extinf_header (JObj item_tt1tt2) "movie"
    = Ok (Header ["#EXTINF:-1"; tvg_id_part "12"; tvg_name_part (JStr "Unknown");
                  group_title_part "Movies"] "Unknown")
  ∧ tvg_id_part "12" ≠ tvg_id_part "1tt2".
Proof. repeat split. discriminate. Qed.

(** ** C4: the display-name field *)

(** C4, as amended.  Every header that is built holds a tvg-name field: with
    the placeholder [Unknown] when the item has no name, and with the name
    as it is when the item has one, the empty string included. *)
Theorem tvg_name_always_present item content_type h :
  create_extinf_header item content_type = Ok h →
  ∃ fields, item = JObj fields
    ∧ tvg_name_part (name_of fields) ∈ parts h
    ∧ (Py.lookup_field "name" fields = None → tvg_name_part (JStr "Unknown") ∈ parts h)
    ∧ (∀ v, Py.lookup_field "name" fields = Some v → tvg_name_part v ∈ parts h).
Proof.
  intros (fields & tmdb_id & -> & _ & ->)%create_extinf_header_inv.
  exists fields. split; [done|].
  assert (tvg_name_part (name_of fields) ∈ parts (header_of fields content_type tmdb_id)) as Hin.
  { unfold header_of; cbn [parts]. rewrite !elem_of_app, !list_elem_of_singleton. tauto. }
  split; [done|]. unfold name_of in Hin.
  split; [intros Hn|intros v Hn]; by rewrite Hn in Hin.
Qed.

Lemma tvg_name_always_present_witness :
  ∃ fields, JObj item_tt_only = JObj fields
    ∧ tvg_name_part (name_of fields) ∈ parts header_tt_only
    ∧ (Py.lookup_field "name" fields = None
       → tvg_name_part (JStr "Unknown") ∈ parts header_tt_only)
    ∧ (∀ v, Py.lookup_field "name" fields = Some v
       → tvg_name_part v ∈ parts header_tt_only).
Proof.
  apply (tvg_name_always_present (JObj item_tt_only) "movie" header_tt_only). reflexivity.
Defined.

(** C4, as stated, fails: an item whose name is the empty string gets an
    empty tvg-name value, and the placeholder is nowhere in its header. *)
Lemma empty_name_not_unknown :
  create_extinf_header (JObj item_empty_name) "movie"
  = Ok (Header ["#EXTINF:-1"; tvg_name_part (JStr ""); group_title_part "Movies"] "")
  ∧ tvg_name_part (JStr "Unknown")
    ∉ ["#EXTINF:-1"; tvg_name_part (JStr ""); group_title_part "Movies"].
Proof.
  split; [reflexivity|].
  rewrite !elem_of_cons, elem_of_nil. intros [?|[?|[?|[]]]]; discriminate.
Qed.

(** ** C10: an identifier that [replace] empties *)

(** C10.  When the identifier begins with [tt] and nothing is left of it once
    every [tt] is removed, [tmdb_id] is the empty string whatever the poster
    is (the poster is not looked at, so a poster that holds an ID, or one on
    which the extraction would raise, changes nothing), and the header has
    no tvg-id field.  No header that is built has a tvg-id field with an
    empty value. *)
Theorem emptied_identifier_omits_tvg_id :
  (∀ fields content_type s,
     Py.lookup_field "id" fields = Some (JStr s) →
     PyStr.startswith "tt" s = true →
     PyStr.replace "tt" "" s = "" →
     resolve_tmdb_id (JObj fields) = Ok (Some "")
     ∧ ∃ h, create_extinf_header (JObj fields) content_type = Ok h
            ∧ ∀ v, tvg_id_part v ∉ parts h)
  ∧ (∀ item content_type h,
       create_extinf_header item content_type = Ok h → tvg_id_part "" ∉ parts h).
Proof.
  split.
  - intros fields content_type s Hid Htt Hrep.
    assert (resolve_tmdb_id (JObj fields) = Ok (Some "")) as Hres.
    { rewrite <- Hrep. apply resolve_own_id; [done|]. by rewrite Htt. }
    split; [done|]. exists (header_of fields content_type (Some "")).
    split; [by apply create_extinf_header_obj|].
    intros v [Ht _]%tvg_id_in_header. done.
  - intros item content_type h (fields & tmdb_id & -> & _ & ->)%create_extinf_header_inv.
    intros [Ht ->]%tvg_id_in_header. done.
Qed.

Lemma emptied_identifier_omits_tvg_id_witness :
  extract_tmdb_from_poster poster_999 = Ok (Some "999")
  ∧ resolve_tmdb_id (JObj item_tt_only) = Ok (Some "")
  ∧ ∃ h, create_extinf_header (JObj item_tt_only) "movie" = Ok h
         ∧ ∀ v, tvg_id_part v ∉ parts h.
Proof.
  split; [reflexivity|].
  apply (proj1 emptied_identifier_omits_tvg_id item_tt_only "movie" "tt"); reflexivity.
Defined.

(** ** C1: the deduplicator *)

Section Dedup.

Implicit Types (es : list (string * string)) (u : string).

Lemma first_occurrences_filter (P : string → Prop) `{!∀ u, Decision (P u)} es :
  first_occurrences (filter (λ e, P e.2) es)
  = filter (λ e, P e.2) (first_occurrences es).
Proof.
  induction es as [|e es IH]; [done|]. cbn [first_occurrences].
  destruct (decide (P e.2)) as [HP|HP].
  - rewrite !filter_cons_True by done. cbn [first_occurrences]. f_equal.
    rewrite IH, !list_filter_filter. apply list_filter_iff. tauto.
  - rewrite !filter_cons_False by done. rewrite IH.
    symmetry. apply list_filter_filter_l. intros x Hx E. apply HP. by rewrite <- E.
Qed.

Lemma dedup_loop_strings es (seen_urls : gset pykey) (unique_entries : list entry) :
  dedup_loop (as_entries es) seen_urls unique_entries
  = Ok (unique_entries
          ++ as_entries (first_occurrences (filter (λ e, KStr e.2 ∉ seen_urls) es))).
Proof.
  revert seen_urls unique_entries.
  induction es as [|[h u] es IH]; intros seen_urls unique_entries.
  - cbn. by rewrite app_nil_r.
  - cbn [as_entries map dedup_loop hash_key mbind result_bind fst snd].
    fold (as_entries es). case_bool_decide as Hseen.
    + rewrite IH. rewrite filter_cons_False; [done|]. cbn. tauto.
    + rewrite IH. rewrite (filter_cons_True _ (h, u)) by done.
      cbn [first_occurrences as_entries map fst snd]. rewrite <- app_assoc.
      do 3 f_equal. unfold as_entries. f_equal.
      pose proof (first_occurrences_filter (λ u', u' ≠ u)) as Hfilter.
      cbn beta in Hfilter. rewrite <- Hfilter.
      f_equal. rewrite list_filter_filter. apply list_filter_iff.
      intros [h' u']. cbn. rewrite elem_of_union, elem_of_singleton.
      split; [intros Hn; split; [|tauto]; intros ->; tauto|].
      intros [Hne Hns] [[= ->]|?]; tauto.
Qed.

Lemma urls_of_filter k (l : list (string * string)) u :
  u ∈ (filter (λ e, e.2 ≠ k) l).*2 ↔ u ≠ k ∧ u ∈ l.*2.
Proof.
  rewrite !list_elem_of_fmap. split.
  - intros (e & -> & [Hne Hin]%list_elem_of_filter). eauto.
  - intros (Hne & e & -> & Hin). exists e. split; [done|].
    by apply list_elem_of_filter.
Qed.

Lemma first_occurrences_sublist es : first_occurrences es `sublist_of` es.
Proof.
  induction es as [|e es IH]; [done|]. cbn. apply sublist_skip.
  etrans; [apply sublist_filter|done].
Qed.

Lemma first_occurrences_urls es u : u ∈ es.*2 ↔ u ∈ (first_occurrences es).*2.
Proof.
  induction es as [|e es IH]; [done|]. cbn [first_occurrences fmap list_fmap].
  rewrite !elem_of_cons, urls_of_filter, <- IH.
  destruct (decide (u = e.2)); tauto.
Qed.

Lemma first_occurrences_NoDup es : NoDup (first_occurrences es).*2.
Proof.
  induction es as [|e es IH]; [constructor|]. cbn [first_occurrences fmap list_fmap].
  constructor.
  - rewrite urls_of_filter. tauto.
  - eapply sublist_NoDup; [exact IH|]. apply fmap_sublist, sublist_filter.
Qed.

Lemma first_occurrences_first es h u :
  (h, u) ∈ first_occurrences es →
  ∃ before after, es = before ++ (h, u) :: after ∧ u ∉ before.*2.
Proof.
  induction es as [|e es IH]; [by intros ?%elem_of_nil|]. cbn [first_occurrences].
  intros [<-|[Hne Hin]%list_elem_of_filter]%elem_of_cons.
  - exists [], es. split; [done|]. apply not_elem_of_nil.
  - destruct (IH Hin) as (before & after & -> & Hfresh).
    exists (e :: before), after. split; [done|].
    cbn. rewrite not_elem_of_cons. done.
Qed.

Lemma first_occurrences_retained before h u after :
  u ∉ before.*2 → (h, u) ∈ first_occurrences (before ++ (h, u) :: after).
Proof.
  induction before as [|e before IH]; cbn [app first_occurrences fmap list_fmap].
  - intros _. apply list_elem_of_here.
  - intros [Hne Hfresh]%not_elem_of_cons. apply list_elem_of_further.
    apply list_elem_of_filter. split; [done|]. by apply IH.
Qed.

Lemma NoDup_urls_header (l : list (string * string)) h h' u :
  NoDup l.*2 → (h, u) ∈ l → (h', u) ∈ l → h' = h.
Proof.
  induction l as [|[h0 u0] l IH]; [by intros _ ?%elem_of_nil|].
  cbn [fmap list_fmap]. intros [Hfresh Hnd]%NoDup_cons.
  assert (∀ x, (x, u0) ∈ l → False) as Hno.
  { intros x Hx. apply Hfresh. apply list_elem_of_fmap. by exists (x, u0). }
  intros [E1|H1]%elem_of_cons [E2|H2]%elem_of_cons; simplify_eq.
  - done.
  - by destruct (Hno _ H2).
  - by destruct (Hno _ H1).
  - by apply IH.
Qed.

End Dedup.

(** C1.  On entries whose urls are strings, the deduplicator returns the
    first occurrence of each distinct url: a subsequence of its input (so
    the retained entries keep their relative order), with pairwise distinct
    urls, in which every url of the input is kept, every retained entry is
    the first of the input with its url, and, of the entries that share a
    url, the first is retained and no other. *)
Theorem dedup_keeps_first_occurrences (es : list (string * string)) :
  dedup (as_entries es) = Ok (as_entries (first_occurrences es))
  ∧ first_occurrences es `sublist_of` es
  ∧ NoDup (first_occurrences es).*2
  ∧ (∀ u, u ∈ es.*2 ↔ u ∈ (first_occurrences es).*2)
  ∧ (∀ h u, (h, u) ∈ first_occurrences es →
       ∃ before after, es = before ++ (h, u) :: after ∧ u ∉ before.*2)
  ∧ (∀ before h u after, es = before ++ (h, u) :: after → u ∉ before.*2 →
       (h, u) ∈ first_occurrences es
       ∧ ∀ h', (h', u) ∈ first_occurrences es → h' = h).
Proof.
  split.
  { unfold dedup. rewrite dedup_loop_strings. cbn [app]. do 3 f_equal.
    induction es as [|e es IH]; [done|].
    rewrite filter_cons_True by apply not_elem_of_empty. by f_equal. }
  split; [apply first_occurrences_sublist|].
  split; [apply first_occurrences_NoDup|].
  split; [apply first_occurrences_urls|].
  split; [apply first_occurrences_first|].
  intros before h u after -> Hfresh.
  pose proof (first_occurrences_retained before h u after Hfresh) as Hin.
  split; [done|]. intros h' Hin'.
  eapply NoDup_urls_header; [apply first_occurrences_NoDup|exact Hin|exact Hin'].
Qed.

Lemma dedup_keeps_first_occurrences_witness :
  dedup (as_entries [("first", "u"); ("other", "v"); ("second", "u")])
  = Ok (as_entries [("first", "u"); ("other", "v")]).
Proof.
  exact (proj1 (dedup_keeps_first_occurrences [("first", "u"); ("other", "v"); ("second", "u")])).
Defined.

(** ** Running computations of [M] *)

Lemma bind_run {A B} (m : M A) (f : A → M B) st :
  (m ≫= f) st
  = match m st with
    | (Ok a, st') => f a st'
    | (Raise e, st') => (Raise e, st')
    end.
Proof. reflexivity. Qed.

Lemma bind_lift_ok {A B} (a : A) (f : A → M B) st : (lift (Ok a) ≫= f) st = f a st.
Proof. reflexivity. Qed.

Lemma bind_lift_raise {A B} e (f : A → M B) st :
  (lift (Raise e) ≫= f) st = (Raise e, st).
Proof. reflexivity. Qed.

Lemma for_each_app {A} (l1 l2 : list A) body st :
  for_each (l1 ++ l2) body st
  = match for_each l1 body st with
    | (Ok _, st') => for_each l2 body st'
    | (Raise e, st') => (Raise e, st')
    end.
Proof.
  revert st. induction l1 as [|x l1 IH]; intros st; [done|].
  cbn [app for_each]. rewrite !bind_run. destruct (body x st) as [[[]|e] st1]; [|done].
  apply IH.
Qed.

(** A loop stops at the first turn that raises: the turns after it do not
    run, and the state is the one that turn left. *)
Lemma for_each_raise_at {A} (l1 : list A) x l2 body st st1 st2 e :
  for_each l1 body st = (Ok (), st1) →
  body x st1 = (Raise e, st2) →
  for_each (l1 ++ x :: l2) body st = (Raise e, st2).
Proof.
  intros H1 Hx. rewrite for_each_app, H1. cbn [for_each]. by rewrite bind_run, Hx.
Qed.


Lemma add_entries_nil st : add_entries st [] = st.
Proof. destruct st. unfold add_entries. cbn. by rewrite app_nil_r. Qed.

Lemma add_entries_app st l1 l2 :
  add_entries (add_entries st l1) l2 = add_entries st (l1 ++ l2).
Proof. unfold add_entries. cbn. by rewrite app_assoc. Qed.

(** ** Source 1: what one item of the static catalog emits *)


Lemma emit_static_streams_ok item content_type streams urls h st :
  create_extinf item content_type = Ok h →
  urls_of streams urls →
  emit_static_streams item content_type streams st
  = (Ok (), add_entries st ((λ url, (h, url)) <$> urls)).
Proof.
  intros Hh Hurls. unfold emit_static_streams. rewrite Hh. revert st.
  induction Hurls as [|stream url streams urls Hurl _ IH]; intros st.
  - cbn. by rewrite add_entries_nil.
  - cbn [for_each]. rewrite bind_run, bind_lift_ok, Hurl, bind_lift_ok.
    cbn [append_entry]. change (State _ _) with (add_entries st [(h, url)]).
    rewrite IH, add_entries_app. reflexivity.
Qed.

Lemma emit_static_streams_inv item content_type streams st st' :
  emit_static_streams item content_type streams st = (Ok (), st') →
  streams ≠ [] →
  ∃ h urls, create_extinf item content_type = Ok h ∧ urls_of streams urls
            ∧ st' = add_entries st ((λ url, (h, url)) <$> urls).
Proof.
  intros Hrun Hne.
  destruct (create_extinf item content_type) as [h|e] eqn:Hh; cycle 1.
  { destruct streams as [|stream streams]; [done|].
    unfold emit_static_streams in Hrun. cbn [for_each] in Hrun.
    by rewrite bind_run, Hh, bind_lift_raise in Hrun. }
  exists h. clear Hne.
  assert (∃ urls, urls_of streams urls) as [urls Hurls].
  { unfold emit_static_streams in Hrun. rewrite Hh in Hrun. revert st Hrun.
    induction streams as [|stream streams IH]; intros st Hrun.
    - exists []. constructor.
    - cbn [for_each] in Hrun. rewrite bind_run, bind_lift_ok in Hrun.
      destruct (Py.index stream "url") as [url|e] eqn:Hurl;
        [|by rewrite bind_lift_raise in Hrun].
      rewrite bind_lift_ok in Hrun. cbn [append_entry] in Hrun.
      destruct (IH _ Hrun) as [urls Hurls]. exists (url :: urls). by constructor. }
  exists urls. split; [done|]. split; [done|].
  rewrite (emit_static_streams_ok _ _ _ _ _ st Hh Hurls) in Hrun. by injection Hrun.
Qed.

Lemma iter_truthy_nonempty v l : Py.truthy v = true → Py.iter v = Ok l → l ≠ [].
Proof.
  destruct v as [| | |s|items|fields]; try done; cbn; intros Ht [= <-].
  - by destruct s.
  - by destruct items.
  - by destruct fields.
Qed.


Lemma series_body_static series count st :
  series_body series count st = static_item series "series" count st.
Proof. reflexivity. Qed.

Lemma movie_body_static movie count category st :
  Py.get movie "category" = Ok category →
  movie_body movie count st
  = if in_domestic category then static_item movie "movie" count st else (Ok count, st).
Proof.
  intros H. unfold movie_body, static_item. rewrite H, bind_lift_ok.
  destruct (in_domestic category); reflexivity.
Qed.

Lemma static_item_ok fields content_type count streams urls h st :
  Py.lookup_field "streams" fields = Some (JArr streams) →
  streams ≠ [] →
  create_extinf (JObj fields) content_type = Ok h →
  urls_of streams urls →
  static_item (JObj fields) content_type count st
  = (Ok (S count), add_entries st ((λ url, (h, url)) <$> urls)).
Proof.
  intros Hs Hne Hh Hurls. unfold static_item.
  rewrite get_obj, bind_lift_ok.
  assert (field fields "streams" = JArr streams) as Hf by (unfold field; by rewrite Hs).
  assert (Py.truthy (field fields "streams") = true) as Ht.
  { rewrite Hf. by destruct streams. }
  rewrite Ht, (index_truthy _ _ Ht), bind_lift_ok, Hf. cbn [Py.iter].
  rewrite bind_lift_ok, bind_run.
  by rewrite (emit_static_streams_ok _ _ _ _ _ st Hh Hurls).
Qed.

Lemma static_item_inv item content_type count st c st' :
  static_item item content_type count st = (Ok c, st') →
  ∃ fields, item = JObj fields ∧
    ((Py.truthy (field fields "streams") = false ∧ c = count ∧ st' = st)
     ∨ (Py.truthy (field fields "streams") = true ∧ c = S count ∧
        ∃ streams h urls,
          Py.iter (field fields "streams") = Ok streams ∧ streams ≠ []
          ∧ create_extinf item content_type = Ok h ∧ urls_of streams urls
          ∧ st' = add_entries st ((λ url, (h, url)) <$> urls))).
Proof.
  unfold static_item. intros Hrun.
  destruct item as [| | | | |fields]; try done. exists fields. split; [done|].
  rewrite get_obj, bind_lift_ok in Hrun.
  destruct (Py.truthy (field fields "streams")) eqn:Ht.
  - right. rewrite (index_truthy _ _ Ht), bind_lift_ok in Hrun.
    destruct (Py.iter (field fields "streams")) as [streams|e] eqn:Hiter;
      [|by rewrite bind_lift_raise in Hrun].
    rewrite bind_lift_ok, bind_run in Hrun.
    destruct (emit_static_streams _ _ _ st) as [[[]|e] st1] eqn:Hemit; [|done].
    injection Hrun as <- <-. split; [done|]. split; [done|].
    pose proof (iter_truthy_nonempty _ _ Ht Hiter) as Hne.
    destruct (emit_static_streams_inv _ _ _ _ _ Hemit Hne) as (h & urls & ? & ? & ?).
    exists streams, h, urls. done.
  - left. by injection Hrun as <- <-.
Qed.

Lemma in_domestic_spec v :
  in_domestic v = true ↔ ∃ category, v = JStr category ∧ category ∈ domestic_categories.
Proof.
  destruct v as [| | |s| |]; cbn; try (split; [done|by intros (? & ? & _)]).
  rewrite bool_decide_eq_true. split; [eauto|]. by intros (? & [= <-] & ?).
Qed.

Lemma add_entries_same st new : all_entries (add_entries st new) = all_entries st → new = [].
Proof.
  cbn. intros H. apply (f_equal length) in H. rewrite length_app in H.
  destruct new; [done|]. cbn in H. lia.
Qed.

Lemma urls_of_length streams urls : urls_of streams urls → length urls = length streams.
Proof. intros H. symmetry. by eapply Forall2_length. Qed.

(** ** C6: one header for all the streams of a kept item *)

(** C6.  For a kept item of the static catalog (a movie of a domestic
    category, or a series) whose streams are a list of [n >= 1] records with
    a url, and whose header [h] can be built, the loop body appends exactly
    [n] entries, one per stream in order, all with the header [h], and counts
    the item; the header is a function of the item and the content type
    alone, so every call on equal arguments returns [h]. *)
Theorem kept_item_entries_share_header fields content_type streams urls h count st :
  (content_type = "movie" ∧ in_domestic (field fields "category") = true)
  ∨ content_type = "series" →
  Py.lookup_field "streams" fields = Some (JArr streams) →
  streams ≠ [] →
  create_extinf (JObj fields) content_type = Ok h →
  urls_of streams urls →
  (if bool_decide (content_type = "series") then series_body else movie_body)
    (JObj fields) count st
  = (Ok (S count), add_entries st ((λ url, (h, url)) <$> urls))
  ∧ length ((λ url, (h, url)) <$> urls) = length streams
  ∧ (∀ e : entry, e ∈ (λ url, (h, url)) <$> urls → e.1 = h)
  ∧ (∀ item' content_type',
       item' = JObj fields → content_type' = content_type →
       create_extinf item' content_type' = Ok h).
Proof.
  intros Hkept Hs Hne Hh Hurls. split; [|split; [|split]].
  - destruct Hkept as [[-> Hcat]| ->]; cbn [bool_decide decide_rel].
    + rewrite (movie_body_static _ _ _ _ (get_obj fields "category")), Hcat.
      by apply static_item_ok with streams.
    + rewrite series_body_static. by apply static_item_ok with streams.
  - rewrite length_fmap. by apply urls_of_length.
  - by intros e (url & -> & _)%list_elem_of_fmap.
  - by intros ? ? -> ->.
Qed.

Lemma kept_item_entries_share_header_witness :
  movie_body (JObj movie_two_streams) 0 init
  = (Ok 1, add_entries init [(header_A, JStr "u1"); (header_A, JStr "u2")])
  ∧ length ((λ url, (header_A, url)) <$> [JStr "u1"; JStr "u2"]) = 2.
Proof.
  destruct (kept_item_entries_share_header movie_two_streams "movie"
              [JObj [("url", JStr "u1")]; JObj [("url", JStr "u2")]]
              [JStr "u1"; JStr "u2"] header_A 0 init) as (H1 & H2 & _).
  - left. split; reflexivity.
  - reflexivity.
  - discriminate.
  - reflexivity.
  - repeat constructor.
  - split; [exact H1|exact H2].
Defined.

(** ** C7: the category filter of the static catalog *)

(** C7.  When the loop body returns for a movie, it has appended entries if
    and only if the category of the movie is a string equal to one of the
    domestic labels and its streams are non-empty; a movie without category,
    or with a category that is no domestic label, such as [Drugo], leaves the
    entries and the count as they were. *)
Theorem movie_kept_iff_domestic_with_streams movie count st :
  (∀ c st', movie_body movie count st = (Ok c, st') →
     (all_entries st' ≠ all_entries st ↔
        ∃ fields category,
          movie = JObj fields
          ∧ Py.lookup_field "category" fields = Some (JStr category)
          ∧ category ∈ domestic_categories
          ∧ Py.truthy (field fields "streams") = true))
  ∧ (∀ fields,
       movie = JObj fields →
       Py.lookup_field "category" fields = None
       ∨ (∃ category, Py.lookup_field "category" fields = Some (JStr category)
                      ∧ category ∉ domestic_categories) →
       movie_body movie count st = (Ok count, st))
  ∧ "Drugo" ∉ domestic_categories.
Proof.
  split; [|split].
  - intros c st' Hrun.
    destruct movie as [| | | | |fields]; try done.
    rewrite (movie_body_static _ _ _ _ (get_obj fields "category")) in Hrun.
    destruct (in_domestic (field fields "category")) eqn:Hcat.
    + apply in_domestic_spec in Hcat as (category & Hcat & Hin).
      assert (Py.lookup_field "category" fields = Some (JStr category)) as Hlook.
      { unfold field in Hcat. by destruct (Py.lookup_field "category" fields); simplify_eq/=. }
      apply static_item_inv in Hrun as (fields' & [= <-] & Hcases).
      destruct Hcases as [(Ht & -> & ->)|(Ht & -> & streams & h & urls & Hit & Hne & _ & Hurls & ->)].
      * split; [done|]. intros (? & ? & [= <-] & _ & _ & Ht'). congruence.
      * split; [intros _; by exists fields, category|]. intros _ Hsame.
        apply add_entries_same, fmap_nil_inv in Hsame. subst urls.
        apply urls_of_length in Hurls. by destruct streams.
    + injection Hrun as <- <-. split; [done|].
      intros (? & category & [= <-] & Hlook & Hin & _).
      assert (in_domestic (field fields "category") = true); [|congruence].
      apply in_domestic_spec. exists category. split; [|done].
      unfold field. by rewrite Hlook.
  - intros fields -> Hcat.
    rewrite (movie_body_static _ _ _ _ (get_obj fields "category")).
    destruct (in_domestic (field fields "category")) eqn:Hdom; [|done].
    apply in_domestic_spec in Hdom as (category & Heq & Hin). unfold field in Heq.
    destruct Hcat as [Hnone|(category' & Hsome & Hnot)].
    + by rewrite Hnone in Heq.
    + rewrite Hsome in Heq. by simplify_eq/=.
  - unfold domestic_categories. rewrite !not_elem_of_cons. repeat split; try discriminate.
    apply not_elem_of_nil.
Qed.

Lemma movie_kept_iff_domestic_with_streams_witness :
  movie_body (JObj movie_drugo) 0 init = (Ok 0, init)
  ∧ (all_entries (add_entries init [(header_A, JStr "u1"); (header_A, JStr "u2")])
     ≠ all_entries init ↔
       ∃ fields category,
         JObj movie_two_streams = JObj fields
         ∧ Py.lookup_field "category" fields = Some (JStr category)
         ∧ category ∈ domestic_categories
         ∧ Py.truthy (field fields "streams") = true).
Proof.
  split.
  - apply (proj1 (proj2 (movie_kept_iff_domestic_with_streams (JObj movie_drugo) 0 init))
             movie_drugo); [reflexivity|].
    right. exists "Drugo". split; [reflexivity|].
    apply (proj2 (proj2 (movie_kept_iff_domestic_with_streams JNull 0 init))).
  - apply (proj1 (movie_kept_iff_domestic_with_streams (JObj movie_two_streams) 0 init) 1).
    reflexivity.
Defined.

(** ** C3: the scope of the silent skip in source 3 *)

Lemma get_truthy_index item k v :
  Py.get item k = Ok v → Py.truthy v = true → Py.index item k = Ok v.
Proof.
  intros Hget Ht. destruct (get_ok_obj _ _ _ Hget) as [fields ->].
  rewrite get_obj in Hget. injection Hget as <-. by apply index_truthy.
Qed.

Lemma fetch_json_run net url st :
  fetch_json net url st = (Ok (default JNull (net url)), add_request st url).
Proof. reflexivity. Qed.

Lemma bind_fetch {B} net url (f : json → M B) st :
  (fetch_json net url ≫= f) st = f (default JNull (net url)) (add_request st url).
Proof. reflexivity. Qed.




(** ** What the computations of the pipeline preserve *)

Lemma py_raises_basic :
  (∀ v k d e, Py.get_default v k d = Raise e → not_zero_division e)
  ∧ (∀ v k e, Py.get v k = Raise e → not_zero_division e)
  ∧ (∀ v k e, Py.index v k = Raise e → not_zero_division e)
  ∧ (∀ v e, Py.iter v = Raise e → not_zero_division e)
  ∧ (∀ v e, Py.len v = Raise e → not_zero_division e)
  ∧ (∀ v p e, Py.startswith v p = Raise e → not_zero_division e)
  ∧ (∀ v e, Py.isdigit v = Raise e → not_zero_division e)
  ∧ (∀ v a b e, Py.replace v a b = Raise e → not_zero_division e)
  ∧ (∀ n v e, Py.contains n v = Raise e → not_zero_division e)
  ∧ (∀ v e, Py.search_jpg_stem v = Raise e → not_zero_division e).
Proof.
  unfold Py.get.
  repeat split; intros; destruct v; simplify_eq/=; try done;
    repeat case_match; by simplify_eq.
Qed.

Lemma result_bind_raises {A B} (r : result A) (f : A → result B) e :
  r ≫= f = Raise e → r = Raise e ∨ ∃ a, r = Ok a ∧ f a = Raise e.
Proof. destruct r as [a|e']; [eauto|]. intros [= <-]. by left. Qed.

Lemma extract_tmdb_raises_basic v e :
  extract_tmdb_from_poster v = Raise e → not_zero_division e.
Proof.
  destruct py_raises_basic as (_ & _ & _ & _ & _ & _ & _ & _ & Hc & Hs).
  unfold extract_tmdb_from_poster. destruct (negb (Py.truthy v)); [done|].
  intros [H|(b & _ & H)]%result_bind_raises; [by eapply Hc|].
  destruct (negb b); [done|]. by eapply Hs.
Qed.

Lemma resolve_tmdb_id_raises_basic item e :
  resolve_tmdb_id item = Raise e → not_zero_division e.
Proof.
  destruct py_raises_basic as (_ & Hg & Hi & _ & _ & Hsw & Hd & Hr & _ & _).
  unfold resolve_tmdb_id.
  intros [H|(own & _ & H)]%result_bind_raises; [by eapply Hg|].
  apply result_bind_raises in H as [H|(usable & _ & H)].
  - destruct (Py.truthy own); [|done].
    apply result_bind_raises in H as [H|(idv & _ & H)]; [by eapply Hi|].
    apply result_bind_raises in H as [H|(b & _ & H)]; [by eapply Hsw|].
    destruct b; [done|].
    apply result_bind_raises in H as [H|(idv' & _ & H)]; [by eapply Hi|by eapply Hd].
  - destruct usable.
    + apply result_bind_raises in H as [H|(idv & _ & H)]; [by eapply Hi|].
      apply result_bind_raises in H as [H|(? & _ & H)]; [by eapply Hr|done].
    + apply result_bind_raises in H as [H|(poster & _ & H)]; [by eapply Hg|].
      destruct (Py.truthy poster); [|done].
      apply result_bind_raises in H as [H|(? & _ & H)]; [by eapply Hi|].
      by eapply extract_tmdb_raises_basic.
Qed.

Lemma create_extinf_raises_basic item content_type e :
  create_extinf item content_type = Raise e → not_zero_division e.
Proof.
  unfold create_extinf.
  intros [H|(? & _ & H)]%result_bind_raises; [|done].
  destruct item as [| | | | |fields]; try by injection H as <-.
  destruct (resolve_tmdb_id (JObj fields)) as [tmdb_id|e'] eqn:Hid.
  - by rewrite (create_extinf_header_obj _ _ _ Hid) in H.
  - unfold create_extinf_header in H. rewrite Hid in H. injection H as <-.
    by eapply resolve_tmdb_id_raises_basic.
Qed.

Lemma render_prefixed h :
  (∃ rest, parts h = "#EXTINF:-1" :: rest) →
  PyStr.startswith "#EXTINF:-1" (render h) = true.
Proof. intros [rest Hp]. unfold render. rewrite Hp. by destruct rest. Qed.

Lemma create_extinf_prefixed item content_type h url :
  create_extinf item content_type = Ok h → header_prefixed (h, url).
Proof.
  unfold create_extinf. destruct (create_extinf_header item content_type) as [hd|] eqn:Hhd;
    [|done].
  intros [= <-]. apply create_extinf_header_inv in Hhd as (fields & tmdb_id & _ & _ & ->).
  apply render_prefixed. eexists. reflexivity.
Qed.

Section Within.

Context (R : relation state) `{!PreOrder R} (E : pyexn → Prop).
Context (fetch_ok : string → Prop) (append_ok : entry → Prop).

Hypothesis R_fetch : ∀ st url, fetch_ok url → R st (add_request st url).
Hypothesis R_append : ∀ st e, append_ok e → R st (add_entries st [e]).
Hypothesis E_basic : ∀ e, not_zero_division e → E e.
Hypothesis header_ok :
  ∀ item content_type h url, create_extinf item content_type = Ok h → append_ok (h, url).

Local Abbreviation within := (within R E).

Lemma within_ret {A} (a : A) : within (mret a).
Proof. intros st. split; [reflexivity|done]. Qed.

Lemma within_lift {A} (r : result A) :
  (∀ e, r = Raise e → not_zero_division e) → within (lift r).
Proof. intros H st. split; [reflexivity|]. cbn. eauto. Qed.

Lemma within_bind {A B} (m : M A) (f : A → M B) :
  within m → (∀ a, within (f a)) → within (m ≫= f).
Proof.
  intros Hm Hf st. rewrite bind_run. destruct (Hm st) as [HR HE].
  destruct (m st) as [[a|e] st1]; cbn in *.
  - destruct (Hf a st1) as [HR' HE']. split; [by etrans|done].
  - split; [done|]. intros ? [= <-]. by apply HE.
Qed.

Lemma within_if {A} (b : bool) (m1 m2 : M A) :
  within m1 → within m2 → within (if b then m1 else m2).
Proof. by destruct b. Qed.

Lemma within_try_pass (m : M unit) : within m → within (try_pass m).
Proof.
  intros Hm st. destruct (Hm st) as [HR _]. unfold try_pass.
  by destruct (m st) as [[[]|e] st1].
Qed.

Lemma within_for_each {A} (l : list A) (body : A → M unit) :
  (∀ x, within (body x)) → within (for_each l body).
Proof.
  intros Hbody. induction l as [|x l IH]; [apply within_ret|].
  cbn [for_each]. apply within_bind; auto.
Qed.

Lemma within_for_count {A} (l : list A) count (body : A → nat → M nat) :
  (∀ x c, within (body x c)) → within (for_count l count body).
Proof.
  intros Hbody. revert count. induction l as [|x l IH]; intros count; [apply within_ret|].
  cbn [for_count]. apply within_bind; auto.
Qed.

Lemma within_append e : append_ok e → within (append_entry e).
Proof. intros He st. split; [by apply R_append|done]. Qed.

Variable net : string → option json.

Lemma within_fetch url : fetch_ok url → within (fetch_json net url).
Proof. intros Hu st. split; [by apply R_fetch|done]. Qed.

Lemma within_lift_bind {A B} (r : result A) (f : A → M B) :
  (∀ e, r = Raise e → not_zero_division e) →
  (∀ a, r = Ok a → within (f a)) →
  within (lift r ≫= f).
Proof.
  intros Hr Hf. destruct r as [a|e].
  - intros st. rewrite bind_lift_ok. by apply Hf.
  - intros st. rewrite bind_lift_raise. split; [reflexivity|].
    intros ? [= <-]. eauto.
Qed.

Ltac basic :=
  destruct py_raises_basic as (? & ? & ? & ? & ? & ? & ? & ? & ? & ?);
  eauto using create_extinf_raises_basic.

Ltac within_step :=
  first
    [ apply within_ret
    | apply within_lift_bind; [basic|intros ? ?]
    | apply within_bind; [|intros ?]
    | apply within_if
    | apply within_try_pass
    | apply within_for_each; intros ?
    | apply within_for_count; intros ? ?
    | apply within_append; eauto
    | apply within_fetch ].

Lemma within_emit_static_streams item content_type streams :
  within (emit_static_streams item content_type streams).
Proof. unfold emit_static_streams. repeat within_step. Qed.

Lemma within_movie_body movie count : within (movie_body movie count).
Proof.
  unfold movie_body. repeat within_step; auto using within_emit_static_streams.
Qed.

Lemma within_series_body series count : within (series_body series count).
Proof.
  unfold series_body. repeat within_step; auto using within_emit_static_streams.
Qed.

Lemma within_static_catalog : fetch_ok baubau_url → within (static_catalog net).
Proof.
  intros Hb. unfold static_catalog. repeat within_step; try done;
    auto using within_movie_body, within_series_body.
Qed.

Hypothesis fetch_meta_ok : ∀ kind id, fetch_ok (meta_url kind id).
Hypothesis fetch_stream_ok : ∀ kind id, fetch_ok (stream_url kind id).

Lemma within_emit_fetched_streams item content_type streams :
  within (emit_fetched_streams item content_type streams).
Proof. unfold emit_fetched_streams. repeat within_step. Qed.

Lemma within_fetch_and_emit item kind id : within (fetch_and_emit net item kind id).
Proof.
  unfold fetch_and_emit. repeat within_step; try done;
    auto using within_emit_fetched_streams.
Qed.

Lemma within_movie_meta_try meta_id : within (movie_meta_try net meta_id).
Proof.
  unfold movie_meta_try. repeat within_step; try done;
    auto using within_fetch_and_emit.
Qed.

Lemma within_episode_body item video : within (episode_body net item video).
Proof. unfold episode_body. repeat within_step; auto using within_fetch_and_emit. Qed.

Lemma within_series_meta_try meta_id : within (series_meta_try net meta_id).
Proof.
  unfold series_meta_try, episodes_loop. repeat within_step; try done;
    auto using within_episode_body.
Qed.

Lemma within_meta_body meta_try meta :
  (∀ meta_id, within (meta_try meta_id)) → within (meta_body meta_try meta).
Proof. intros H. unfold meta_body. repeat within_step; auto using H. Qed.

(** What follows the fetch of the page in [catalog_page]. *)
Lemma within_catalog_page catalog_url meta_try skip count :
  fetch_ok (catalog_url skip) →
  (∀ meta_id, within (meta_try meta_id)) →
  within (catalog_page net catalog_url meta_try skip count).
Proof.
  intros Hc Hm. unfold catalog_page. repeat within_step; try done; auto using within_meta_body.
Qed.

Lemma within_paginate catalog_url meta_try fuel skip count st r st' :
  (∀ skip, fetch_ok (catalog_url skip)) →
  (∀ meta_id, within (meta_try meta_id)) →
  paginate net catalog_url meta_try fuel skip count st = Some (r, st') →
  R st st' ∧ ∀ e, r = Raise e → E e.
Proof.
  intros Hc Hm. revert skip count st.
  induction fuel as [|fuel IH]; intros skip count st; [done|]. cbn [paginate].
  destruct (within_catalog_page catalog_url meta_try skip count (Hc skip) Hm st) as [HR HE].
  destruct (catalog_page _ _ _ _ _ st) as [[[|count']|e] st1]; cbn in HR, HE.
  - intros [= <- <-]. split; [exact HR|]. intros ? [=].
  - intros [HR' HE']%IH. split; [by etrans|done].
  - intros [= <- <-]. split; [exact HR|]. intros e0 [= <-]. by apply HE.
Qed.

End Within.

Global Instance keeps_prefixed_preorder : PreOrder keeps_prefixed.
Proof.
  split; [intros st H; exact H|]. intros st1 st2 st3 H12 H23 H. apply H23, H12, H.
Qed.

Global Instance only_item_requests_preorder : PreOrder only_item_requests.
Proof.
  split.
  - intros st. exists []. by rewrite app_nil_r.
  - intros st1 st2 st3 (x1 & E1 & F1) (x2 & E2 & F2). exists (x1 ++ x2).
    rewrite E2, E1, app_assoc. split; [done|]. by apply Forall_app.
Qed.

(** The entries of a run keep prefixed headers, and no step of the three
    sources raises [ZeroDivisionError]. *)
Section HeadersPrefixed.

Variable net : string → option json.

Local Lemma prefixed_fetch st url : True → keeps_prefixed st (add_request st url).
Proof. by intros _ H. Qed.

Local Lemma prefixed_append st e :
  header_prefixed e → keeps_prefixed st (add_entries st [e]).
Proof. intros He H. cbn. apply Forall_app. split; [done|]. by constructor. Qed.

Ltac side :=
  first [ exact prefixed_fetch | exact prefixed_append | exact create_extinf_prefixed
        | by intros ].

Lemma static_catalog_prefixed : within keeps_prefixed not_zero_division (static_catalog net).
Proof.
  apply (within_static_catalog keeps_prefixed not_zero_division
           (λ _, True) header_prefixed); side.
Qed.

Lemma domaci_movies_prefixed fuel st r st' :
  domaci_movies net fuel st = Some (r, st') →
  keeps_prefixed st st' ∧ ∀ e, r = Raise e → not_zero_division e.
Proof.
  apply (within_paginate keeps_prefixed not_zero_division (λ _, True)); try side.
  intros meta_id.
  apply (within_movie_meta_try keeps_prefixed not_zero_division
           (λ _, True) header_prefixed); side.
Qed.

Lemma domaci_series_prefixed fuel st r st' :
  domaci_series net fuel st = Some (r, st') →
  keeps_prefixed st st' ∧ ∀ e, r = Raise e → not_zero_division e.
Proof.
  apply (within_paginate keeps_prefixed not_zero_division (λ _, True)); try side.
  intros meta_id.
  apply (within_series_meta_try keeps_prefixed not_zero_division
           (λ _, True) header_prefixed); side.
Qed.

End HeadersPrefixed.

(** ** The deduplicator on arbitrary url values *)

Lemma dedup_loop_inv entries seen_urls acc out :
  dedup_loop entries seen_urls acc = Ok out →
  ∃ new keys,
    out = acc ++ new
    ∧ new `sublist_of` entries
    ∧ Forall2 (λ e k, hash_key e.2 = Ok k) new keys
    ∧ NoDup keys
    ∧ ∀ k, k ∈ keys → k ∉ seen_urls.
Proof.
  revert seen_urls acc. induction entries as [|[h u] entries IH]; intros seen_urls acc.
  - intros [= <-]. exists [], []. rewrite app_nil_r. repeat split; try constructor.
    by intros k ?%elem_of_nil.
  - cbn [dedup_loop]. destruct (hash_key u) as [k|e] eqn:Hk; [|done].
    cbn [mbind result_bind]. case_bool_decide as Hseen.
    + intros (new & keys & -> & Hsub & Hkeys & Hnd & Hfresh)%IH.
      exists new, keys. repeat split; try done. by apply sublist_cons.
    + intros (new & keys & -> & Hsub & Hkeys & Hnd & Hfresh)%IH.
      exists ((h, u) :: new), (k :: keys). rewrite <- app_assoc. repeat split.
      * by apply sublist_skip.
      * by constructor.
      * constructor; [|done]. intros Hin. apply (Hfresh _ Hin). set_solver.
      * intros k' [->|Hin]%elem_of_cons; [done|]. specialize (Hfresh _ Hin). set_solver.
Qed.

Lemma dedup_loop_raises entries seen_urls acc e :
  dedup_loop entries seen_urls acc = Raise e → not_zero_division e.
Proof.
  revert seen_urls acc. induction entries as [|[h u] entries IH]; intros seen_urls acc; [done|].
  cbn [dedup_loop]. destruct u; cbn; try case_bool_decide; eauto; by intros [= <-].
Qed.

Lemma tmdb_percent_value unique :
  tmdb_percent unique
  = Ok (if decide (unique = []) then 0
        else (Z.of_nat (count_with tvg_id_marker unique) * 100)
               `div` Z.of_nat (length unique))%Z.
Proof.
  destruct unique as [|e unique]; [done|]. unfold tmdb_percent, floordiv.
  rewrite decide_False by done. by case_match.
Qed.

Lemma finish_inv loaded c2 c3 entries r :
  finish loaded c2 c3 entries = Ok r →
  ∃ pc, dedup entries = Ok (unique_entries r)
        ∧ tmdb_percent (unique_entries r) = Ok pc
        ∧ percent r = pc
        ∧ output r = write_m3u (unique_entries r).
Proof.
  unfold finish. destruct (dedup entries) as [unique|] eqn:Hd; [|done].
  cbn [mbind result_bind]. rewrite tmdb_percent_value. cbn [mbind result_bind].
  intros [= <-]. cbn [unique_entries percent output]. eexists.
  split; [done|]. split; [apply tmdb_percent_value|done].
Qed.

Lemma finish_raises loaded c2 c3 entries e :
  finish loaded c2 c3 entries = Raise e → not_zero_division e.
Proof.
  unfold finish. destruct (dedup entries) as [unique|e'] eqn:Hd.
  - cbn [mbind result_bind]. by rewrite tmdb_percent_value.
  - intros [= <-]. by eapply dedup_loop_raises.
Qed.

Lemma main_inv net fuel r :
  main net fuel = Some (Ok r) →
  ∃ loaded c2 c3 entries,
    Forall header_prefixed entries ∧ finish loaded c2 c3 entries = Ok r.
Proof.
  unfold main.
  destruct (static_catalog_prefixed net init) as [H1 _].
  destruct (static_catalog net init) as [[loaded|] st1]; [|done]. cbn in H1.
  destruct (domaci_movies net fuel st1) as [[[c2|] st2]|] eqn:H2; try done.
  destruct (domaci_series net fuel st2) as [[[c3|] st3]|] eqn:H3; try done.
  intros [= Hfin]. exists loaded, c2, c3, (all_entries st3). split; [|done].
  apply domaci_movies_prefixed in H2 as [H2 _].
  apply domaci_series_prefixed in H3 as [H3 _].
  apply H3, H2, H1. constructor.
Qed.

Lemma main_raises net fuel e :
  main net fuel = Some (Raise e) → not_zero_division e.
Proof.
  unfold main.
  destruct (static_catalog_prefixed net init) as [_ H1].
  destruct (static_catalog net init) as [[loaded|e1] st1]; cbn in H1;
    [|intros [= <-]; by apply H1].
  destruct (domaci_movies net fuel st1) as [[[c2|e2] st2]|] eqn:H2; try done;
    [|intros [= <-]; apply domaci_movies_prefixed in H2 as [_ H2]; by apply H2].
  destruct (domaci_series net fuel st2) as [[[c3|e3] st3]|] eqn:H3; try done;
    [|intros [= <-]; apply domaci_series_prefixed in H3 as [_ H3]; by apply H3].
  intros [= Hfin]. by eapply finish_raises.
Qed.

(** ** C9: the percentage of the summary *)

(** C9.  With no retained entry the percentage is 0; with some, it is the
    quotient by their number, which is not zero: the computation of the
    percentage never raises, no run of [main] ends in [ZeroDivisionError],
    and a run that retains no entry reports 0. *)
Theorem percentage_division_guarded :
  tmdb_percent [] = Ok 0%Z
  ∧ (∀ unique,
       tmdb_percent unique
       = Ok (if decide (unique = []) then 0
             else (Z.of_nat (count_with tvg_id_marker unique) * 100)
                    `div` Z.of_nat (length unique))%Z)
  ∧ (∀ net fuel, main net fuel ≠ Some (Raise ZeroDivisionError))
  ∧ (∀ net fuel r, main net fuel = Some (Ok r) → unique_entries r = [] → percent r = 0%Z).
Proof.
  split; [done|]. split; [apply tmdb_percent_value|]. split.
  - intros net fuel H. by apply main_raises in H.
  - intros net fuel r (loaded & c2 & c3 & entries & _ & Hfin)%main_inv Hnil.
    apply finish_inv in Hfin as (pc & _ & Hpc & <- & _).
    rewrite Hnil in Hpc. by injection Hpc.
Qed.

Lemma percentage_division_guarded_witness :
  main net_down 1 = Some (Ok empty_report) ∧ percent empty_report = 0%Z.
Proof.
  split; [reflexivity|].
  apply (proj2 (proj2 (proj2 percentage_division_guarded)) net_down 1); reflexivity.
Defined.

(** ** C8: the output file *)

Lemma string_app_assoc (a b c : string) : (a +:+ b) +:+ c = a +:+ (b +:+ c).
Proof.
  induction a as [|x a IH]; [done|].
  change (String x ((a +:+ b) +:+ c) = String x (a +:+ (b +:+ c))). by rewrite IH.
Qed.

Lemma write_entries_unlines unique :
  write_entries unique = unlines (unique ≫= λ e, [e.1; Py.str e.2]).
Proof.
  induction unique as [|e unique IH]; [done|].
  cbn [write_entries mbind list_bind app unlines]. rewrite IH. unfold write_entry.
  by rewrite string_app_assoc.
Qed.

Lemma entry_lines_lookup (unique : list entry) i :
  (unique ≫= λ e, [e.1; Py.str e.2]) !! (2 * i) = fst <$> unique !! i
  ∧ (unique ≫= λ e, [e.1; Py.str e.2]) !! (2 * i + 1) = (λ e, Py.str e.2) <$> unique !! i.
Proof.
  revert i. induction unique as [|e unique IH]; intros i; [done|].
  destruct i as [|i]; [done|].
  replace (2 * S i) with (S (S (2 * i))) by lia.
  replace (S (S (2 * i)) + 1) with (S (S (2 * i + 1))) by lia.
  exact (IH i).
Qed.

Lemma entry_lines_length (unique : list entry) :
  length (unique ≫= λ e, [e.1; Py.str e.2]) = 2 * length unique.
Proof. induction unique as [|e unique IH]; [done|]. cbn in *. lia. Qed.

Lemma split_lines_unlines lines :
  Forall one_line lines → split_lines (unlines lines) = lines.
Proof.
  induction 1 as [|line lines Hline _ IH]; [done|]. cbn [unlines].
  revert Hline. unfold one_line. induction line as [|c line IHline]; intros Hline.
  - change (split_lines (String "010" (unlines lines)) = "" :: lines).
    cbn [split_lines]. by rewrite IH.
  - cbn [Py.has_char] in Hline. apply orb_false_iff in Hline as [Hc Hline].
    change (split_lines (String c ((line +:+ nl) +:+ unlines lines)) = String c line :: lines).
    cbn [split_lines]. rewrite bool_decide_eq_false in Hc.
    rewrite bool_decide_false by congruence. by rewrite (IHline Hline).
Qed.

(** C8.  The file written by a run is the marker line followed, for each
    retained entry in order, by its header line and then its url line.  The
    header line of every entry begins with the prefix token; and, the urls
    being strings, no two entries write the same url line: a url is written
    once, on the line after its own header.  The lines written are the lines
    of the file as long as no header and no url holds a line feed (values
    are written as they come). *)
Theorem output_pairs_url_with_header net fuel r :
  main net fuel = Some (Ok r) →
  output r = unlines (written_lines (unique_entries r))
  ∧ written_lines (unique_entries r) !! 0 = Some "#EXTM3U"
  ∧ length (written_lines (unique_entries r)) = 1 + 2 * length (unique_entries r)
  ∧ (∀ i e, unique_entries r !! i = Some e →
       written_lines (unique_entries r) !! (2 * i + 1) = Some e.1
       ∧ written_lines (unique_entries r) !! (2 * i + 2) = Some (Py.str e.2)
       ∧ header_prefixed e)
  ∧ (Forall (λ e, ∃ url, e.2 = JStr url) (unique_entries r) →
     ∀ i j line,
       written_lines (unique_entries r) !! (2 * i + 2) = Some line →
       written_lines (unique_entries r) !! (2 * j + 2) = Some line →
       i = j)
  ∧ (Forall one_line (written_lines (unique_entries r)) →
     split_lines (output r) = written_lines (unique_entries r)).
Proof.
  intros (loaded & c2 & c3 & entries & Hpre & Hfin)%main_inv.
  apply finish_inv in Hfin as (pc & Hdedup & _ & _ & Hout).
  apply dedup_loop_inv in Hdedup as (new & keys & Hnew & Hsub & Hkeys & Hnd & _).
  cbn [app] in Hnew. subst new. set (unique := unique_entries r) in *.
  assert (∀ i, written_lines unique !! (2 * i + 1) = fst <$> unique !! i
               ∧ written_lines unique !! (2 * i + 2) = (λ e, Py.str e.2) <$> unique !! i)
    as Hlines.
  { intros i. unfold written_lines.
    replace (2 * i + 1) with (S (2 * i)) by lia.
    replace (2 * i + 2) with (S (2 * i + 1)) by lia. apply entry_lines_lookup. }
  assert (output r = unlines (written_lines unique)) as Htext.
  { rewrite Hout. unfold write_m3u, written_lines. cbn [unlines].
    by rewrite write_entries_unlines. }
  split; [exact Htext|]. split; [|split; [|split; [|split]]]; cycle 4.
  { intros Hone. rewrite Htext. by apply split_lines_unlines. }
  - done.
  - unfold written_lines. cbn [length]. by rewrite entry_lines_length.
  - intros i e Hi. destruct (Hlines i) as [-> ->]. rewrite Hi. repeat split.
    eapply Forall_forall; [exact Hpre|]. eapply elem_of_sublist; [|exact Hsub].
    by eapply list_elem_of_lookup_2.
  - intros Hstr i j line Hi Hj.
    destruct (Hlines i) as [_ Ei], (Hlines j) as [_ Ej]. rewrite Ei in Hi. rewrite Ej in Hj.
    destruct (unique !! i) as [e|] eqn:Hei; [|done].
    destruct (unique !! j) as [e'|] eqn:Hej; [|done].
    cbn in Hi, Hj.
    destruct (Forall2_lookup_l _ _ _ _ _ Hkeys Hei) as (k & Hki & Hk).
    destruct (Forall2_lookup_l _ _ _ _ _ Hkeys Hej) as (k' & Hkj & Hk').
    eapply NoDup_lookup; [exact Hnd|exact Hki|]. rewrite Hkj. f_equal.
    assert (∃ url, e.2 = JStr url) as [u Hu].
    { eapply (Forall_forall (λ e, ∃ url, e.2 = JStr url)); [exact Hstr|].
      by eapply list_elem_of_lookup_2. }
    assert (∃ url, e'.2 = JStr url) as [u' Hu'].
    { eapply (Forall_forall (λ e, ∃ url, e.2 = JStr url)); [exact Hstr|].
      by eapply list_elem_of_lookup_2. }
    rewrite Hu in Hi, Hk. rewrite Hu' in Hj, Hk'. cbn in *. congruence.
Qed.

Lemma output_pairs_url_with_header_witness :
  main net_bad_episode 2 = Some (Ok report_s1)
  ∧ output report_s1 = unlines ["#EXTM3U"; header_S1; "v1"]
  ∧ written_lines (unique_entries report_s1) !! 2 = Some "v1".
Proof.
  assert (main net_bad_episode 2 = Some (Ok report_s1)) as Hrun by (vm_compute; reflexivity).
  split; [exact Hrun|].
  destruct (output_pairs_url_with_header net_bad_episode 2 report_s1 Hrun)
    as (Hout & _ & _ & Hlines & _ & _).
  split; [exact Hout|].
  exact (proj1 (proj2 (Hlines 0 (header_S1, JStr "v1") eq_refl))).
Defined.

(** ** C5: the paginated loops *)

Lemma meta_url_not_catalog kind id : is_catalog_request (meta_url kind id) = false.
Proof. reflexivity. Qed.

Lemma stream_url_not_catalog kind id : is_catalog_request (stream_url kind id) = false.
Proof. reflexivity. Qed.

Lemma catalog_url_of_catalog source skip :
  is_catalog_request (catalog_url_of source skip) = true.
Proof. destruct source; reflexivity. Qed.

Lemma catalog_requests_add_catalog st url :
  is_catalog_request url = true →
  catalog_requests (add_request st url) = catalog_requests st ++ [url].
Proof.
  intros H. unfold catalog_requests. cbn. rewrite filter_app.
  by rewrite (filter_cons_True _ url) by done.
Qed.

Lemma catalog_requests_only_item st st' :
  only_item_requests st st' → catalog_requests st' = catalog_requests st.
Proof.
  intros (extra & Hreq & Hextra). unfold catalog_requests. rewrite Hreq, filter_app.
  rewrite <- (app_nil_r (filter _ (requests st))) at 2. f_equal. clear Hreq.
  induction Hextra as [|url extra Hurl _ IH]; [done|].
  rewrite filter_cons_False by (by rewrite Hurl). exact IH.
Qed.

Section ItemRequests.

Variable net : string → option json.

Local Lemma item_fetch st url :
  is_catalog_request url = false → only_item_requests st (add_request st url).
Proof. intros H. exists [url]. split; [done|]. by constructor. Qed.

Local Lemma item_append st e : True → only_item_requests st (add_entries st [e]).
Proof. intros _. exists []. cbn. by rewrite app_nil_r. Qed.

Ltac side :=
  first [ exact item_fetch | exact item_append | exact meta_url_not_catalog
        | exact stream_url_not_catalog | by intros ].

Lemma movie_meta_try_item_requests meta_id :
  within only_item_requests (λ _, True) (movie_meta_try net meta_id).
Proof.
  apply (within_movie_meta_try only_item_requests (λ _, True)
           (λ url, is_catalog_request url = false) (λ _, True)); side.
Qed.

Lemma series_meta_try_item_requests meta_id :
  within only_item_requests (λ _, True) (series_meta_try net meta_id).
Proof.
  apply (within_series_meta_try only_item_requests (λ _, True)
           (λ url, is_catalog_request url = false) (λ _, True)); side.
Qed.

End ItemRequests.

Lemma for_each_all_ok {A} (l : list A) (body : A → M unit) st :
  Forall (λ x, ∀ st, (body x st).1 = Ok ()) l → (for_each l body st).1 = Ok ().
Proof.
  intros H. revert st. induction H as [|x l Hx _ IH]; intros st; [done|].
  cbn [for_each]. rewrite bind_run. specialize (Hx st).
  destruct (body x st) as [[[]|e] st1]; [apply IH|done].
Qed.

Lemma meta_body_record_ok meta_try meta_fields st :
  (meta_body meta_try (JObj meta_fields) st).1 = Ok ().
Proof.
  unfold meta_body. cbn [Py.get_default]. rewrite bind_lift_ok.
  destruct (Py.truthy _); [|done]. unfold try_pass.
  by destruct (meta_try _ st) as [[[]|e] st1].
Qed.

Section Paginate.

Variables (net : string → option json) (catalog_url : nat → string)
  (meta_try : json → M unit).

Hypothesis catalog_url_catalog : ∀ skip, is_catalog_request (catalog_url skip) = true.
Hypothesis meta_try_item_requests :
  ∀ meta_id, within only_item_requests (λ _, True) (meta_try meta_id).

Local Abbreviation page skip := (page_at net catalog_url skip).
Local Abbreviation turn := (catalog_page net catalog_url meta_try).
Local Abbreviation loop := (paginate net catalog_url meta_try).

Lemma metas_loop_item_requests metas :
  within only_item_requests (λ _, True) (for_each metas (meta_body meta_try)).
Proof.
  apply within_for_each; [apply _|]. intros meta.
  apply within_meta_body; [apply _|done|done].
Qed.

Lemma turn_ends skip count st :
  ends_pagination (page skip) = true →
  turn skip count st = (Ok Break, add_request st (catalog_url skip)).
Proof.
  unfold ends_pagination, catalog_page. rewrite bind_fetch. fold (page skip).
  destruct (Py.truthy (page skip)) eqn:Ht; [|done]. cbn [negb orb].
  destruct (Py.get (page skip) "metas") as [metas|] eqn:Hget; [|done].
  intros Hm. rewrite bind_lift_ok. by rewrite Hm.
Qed.

Lemma turn_continues skip count st :
  ends_pagination (page skip) = false →
  ∃ r st', turn skip count st = (r, st') ∧ r ≠ Ok Break
           ∧ only_item_requests (add_request st (catalog_url skip)) st'.
Proof.
  unfold ends_pagination, catalog_page. rewrite bind_fetch. fold (page skip).
  set (st0 := add_request st (catalog_url skip)).
  destruct (Py.truthy (page skip)) eqn:Ht; [|done]. cbn [negb orb].
  destruct (Py.get (page skip) "metas") as [metas|e] eqn:Hget; cycle 1.
  { intros _. rewrite bind_lift_raise. exists (Raise e), st0. by split; [|split]. }
  intros Hm%negb_false_iff. rewrite bind_lift_ok, Hm. cbn [negb].
  rewrite (get_truthy_index _ _ _ Hget Hm), bind_lift_ok, Hm. cbn [negb].
  destruct (Py.len metas) as [n|e];
    [rewrite bind_lift_ok
    |rewrite bind_lift_raise; exists (Raise e), st0; by split; [|split]].
  destruct (Py.iter metas) as [meta_list|e];
    [rewrite bind_lift_ok
    |rewrite bind_lift_raise; exists (Raise e), st0; by split; [|split]].
  rewrite bind_run. destruct (metas_loop_item_requests meta_list st0) as [HR _].
  destruct (for_each meta_list (meta_body meta_try) st0) as [[[]|e] st1]; cbn in HR.
  - exists (Ok (Next (count + n))), st1. by split; [|split].
  - exists (Raise e), st1. by split; [|split].
Qed.

Lemma turn_listing skip count st metas :
  listing (page skip) metas →
  ∃ st', turn skip count st = (Ok (Next (count + length metas)), st')
         ∧ only_item_requests (add_request st (catalog_url skip)) st'.
Proof.
  intros (fields & Hpage & Hlook & Hne & Hrecords).
  unfold catalog_page. rewrite bind_fetch. fold (page skip). rewrite Hpage.
  set (st0 := add_request st (catalog_url skip)).
  assert (field fields "metas" = JArr metas) as Hf by (unfold field; by rewrite Hlook).
  assert (Py.truthy (JArr metas) = true) as Hm by (by destruct metas).
  assert (Py.truthy (JObj fields) = true) as Ht by (by destruct fields).
  assert (Py.index (JObj fields) "metas" = Ok (JArr metas)) as Hidx
    by (unfold Py.index; by rewrite Hlook).
  rewrite Ht. cbn [negb]. rewrite get_obj, bind_lift_ok, Hf, Hm. cbn [negb].
  rewrite Hidx, bind_lift_ok, Hm. cbn [negb Py.len Py.iter].
  rewrite !bind_lift_ok, bind_run.
  destruct (metas_loop_item_requests metas st0) as [HR _].
  assert ((for_each metas (meta_body meta_try) st0).1 = Ok ()) as Hok.
  { apply for_each_all_ok. eapply Forall_impl; [exact Hrecords|].
    intros meta [meta_fields ->] st1. apply meta_body_record_ok. }
  destruct (for_each metas (meta_body meta_try) st0) as [[[]|e] st1]; [|done].
  exists st1. by split.
Qed.

Lemma listing_goes_on p metas : listing p metas → ends_pagination p = false.
Proof.
  intros (fields & -> & Hlook & Hne & _). unfold ends_pagination.
  rewrite get_obj. unfold field. rewrite Hlook.
  destruct fields; [done|]. by destruct metas.
Qed.

(** The loop reaches the first page that ends it, and stops there. *)
Lemma loop_stops (listings : list (list json)) skip count st fuel :
  (∀ j metas, listings !! j = Some metas → listing (page (skip + 100 * j)) metas) →
  ends_pagination (page (skip + 100 * length listings)) = true →
  length listings < fuel →
  ∃ st', loop fuel skip count st
         = Some (Ok (count + sum_list (length <$> listings)), st')
         ∧ catalog_requests st'
           = catalog_requests st ++ page_urls catalog_url skip (S (length listings)).
Proof.
  revert skip count st fuel.
  induction listings as [|metas listings IH]; intros skip count st fuel Hlist Hend Hfuel;
    (destruct fuel as [|fuel]; [cbn in Hfuel; lia|]); cbn [paginate].
  - cbn [length] in Hend. rewrite Nat.mul_0_r, Nat.add_0_r in Hend.
    rewrite (turn_ends _ _ _ Hend). eexists. split.
    + cbn. by rewrite Nat.add_0_r.
    + by apply catalog_requests_add_catalog.
  - destruct (turn_listing skip count st metas) as (st1 & -> & Hreq).
    { specialize (Hlist 0 metas eq_refl). by rewrite Nat.mul_0_r, Nat.add_0_r in Hlist. }
    destruct (IH (skip + 100) (count + length metas) st1 fuel) as (st' & -> & Hcat).
    { intros j metas' Hj. specialize (Hlist (S j) metas' Hj).
      by replace (skip + 100 + 100 * j) with (skip + 100 * S j) by lia. }
    { cbn [length] in Hend.
      by replace (skip + 100 + 100 * length listings)
        with (skip + 100 * S (length listings)) by lia. }
    { cbn in Hfuel. lia. }
    exists st'. split.
    + cbn. do 3 f_equal. lia.
    + rewrite Hcat, (catalog_requests_only_item _ _ Hreq).
      rewrite catalog_requests_add_catalog by done. by rewrite <- app_assoc.
Qed.

(** When the loop has ended without exception, it has stopped at the first
    page that ends it, after one request per page. *)
Lemma loop_done_inv fuel skip count st c st' :
  loop fuel skip count st = Some (Ok c, st') →
  ∃ k, k < fuel
       ∧ ends_pagination (page (skip + 100 * k)) = true
       ∧ (∀ j, j < k → ends_pagination (page (skip + 100 * j)) = false)
       ∧ catalog_requests st'
         = catalog_requests st ++ page_urls catalog_url skip (S k).
Proof.
  revert skip count st. induction fuel as [|fuel IH]; intros skip count st; [done|].
  cbn [paginate]. destruct (ends_pagination (page skip)) eqn:Hend.
  - rewrite (turn_ends _ _ _ Hend). intros [= <- <-]. exists 0.
    rewrite Nat.mul_0_r, Nat.add_0_r. split; [lia|]. split; [done|].
    split; [intros; lia|]. by apply catalog_requests_add_catalog.
  - destruct (turn_continues skip count st Hend) as (r & st1 & -> & Hr & Hreq).
    destruct r as [[|count']|e]; [done| |done].
    intros (k & Hk & Hendk & Hbefore & Hcat)%IH. exists (S k).
    split; [lia|]. split; [|split].
    + by replace (skip + 100 * S k) with (skip + 100 + 100 * k) by lia.
    + intros [|j] Hj; [by rewrite Nat.mul_0_r, Nat.add_0_r|].
      replace (skip + 100 * S j) with (skip + 100 + 100 * j) by lia.
      apply Hbefore. lia.
    + rewrite Hcat, (catalog_requests_only_item _ _ Hreq).
      rewrite catalog_requests_add_catalog by done. by rewrite <- app_assoc.
Qed.

(** When every page lists items, the loop is still running after any
    number of turns. *)
Lemma loop_forever fuel skip count st :
  (∀ j, ∃ metas, listing (page (skip + 100 * j)) metas) →
  loop fuel skip count st = None.
Proof.
  revert skip count st. induction fuel as [|fuel IH]; intros skip count st Hall; [done|].
  cbn [paginate]. destruct (Hall 0) as [metas Hmetas].
  rewrite Nat.mul_0_r, Nat.add_0_r in Hmetas.
  destruct (turn_listing skip count st metas Hmetas) as (st1 & -> & _).
  apply IH. intros j. destruct (Hall (S j)) as [metas' H]. exists metas'.
  by replace (skip + 100 + 100 * j) with (skip + 100 * S j) by lia.
Qed.

End Paginate.

Lemma run_paged_loop net source fuel st :
  run_paged net source fuel st
  = paginate net (catalog_url_of source)
      (match source with
       | DomaciMovies => movie_meta_try net
       | DomaciSeries => series_meta_try net
       end) fuel 0 0 st.
Proof. by destruct source. Qed.

Lemma paged_item_requests net source meta_id :
  within only_item_requests (λ _, True)
    (match source with
     | DomaciMovies => movie_meta_try net
     | DomaciSeries => series_meta_try net
     end meta_id).
Proof.
  destruct source;
    [apply movie_meta_try_item_requests|apply series_meta_try_item_requests].
Qed.

(** *** The items of the pages are processed in order *)

Lemma meta_url_loop kind id : is_loop_request (meta_url kind id) = true.
Proof. reflexivity. Qed.

Lemma stream_url_not_loop kind id : is_loop_request (stream_url kind id) = false.
Proof. reflexivity. Qed.

Lemma catalog_url_of_loop source skip : is_loop_request (catalog_url_of source skip) = true.
Proof. destruct source; reflexivity. Qed.

Lemma loop_requests_add st url :
  is_loop_request url = true →
  loop_requests (add_request st url) = loop_requests st ++ [url].
Proof.
  intros H. unfold loop_requests. cbn. rewrite filter_app.
  by rewrite (filter_cons_True _ url) by done.
Qed.

Global Instance keeps_loop_requests_preorder : PreOrder keeps_loop_requests.
Proof.
  split; [by intros st|]. unfold keeps_loop_requests. intros st1 st2 st3 H1 H2. congruence.
Qed.

Lemma detail_urls_app kind l1 l2 :
  detail_urls kind (l1 ++ l2) = detail_urls kind l1 ++ detail_urls kind l2.
Proof. unfold detail_urls. by rewrite fmap_app, filter_app, fmap_app. Qed.

Lemma detail_urls_one kind meta :
  detail_urls kind [meta]
  = if Py.truthy (item_id meta) then [meta_url kind (item_id meta)] else [].
Proof.
  unfold detail_urls. cbn [fmap list_fmap]. rewrite filter_cons, filter_nil.
  destruct (Py.truthy (item_id meta)) eqn:Ht.
  - by rewrite decide_True.
  - by rewrite decide_False.
Qed.

Lemma detail_urls_length kind metas :
  Forall has_id metas → length (detail_urls kind metas) = length metas.
Proof.
  unfold detail_urls. rewrite length_fmap. induction 1 as [|meta metas Hid _ IH]; [done|].
  cbn [fmap list_fmap]. rewrite filter_cons_True by exact Hid. cbn [length].
  f_equal. exact IH.
Qed.

Section ItemTrace.

Variable net : string → option json.

Local Lemma quiet_fetch st url :
  is_loop_request url = false → keeps_loop_requests st (add_request st url).
Proof.
  intros H. unfold keeps_loop_requests, loop_requests. cbn. rewrite filter_app.
  rewrite filter_cons_False by (by rewrite H). by rewrite filter_nil, app_nil_r.
Qed.

Local Lemma quiet_append st e : True → keeps_loop_requests st (add_entries st [e]).
Proof. by intros _. Qed.

Ltac quiet :=
  first [ exact quiet_fetch | exact quiet_append | exact stream_url_not_loop
        | by intros ].

Lemma fetch_and_emit_quiet item kind id :
  within keeps_loop_requests (λ _, True) (fetch_and_emit net item kind id).
Proof.
  apply (within_fetch_and_emit keeps_loop_requests (λ _, True)
           (λ url, is_loop_request url = false) (λ _, True)); quiet.
Qed.

Lemma episodes_loop_quiet item videos :
  within keeps_loop_requests (λ _, True) (episodes_loop net item videos).
Proof.
  unfold episodes_loop. apply within_for_each; [apply _|]. intros video.
  apply (within_episode_body keeps_loop_requests (λ _, True)
           (λ url, is_loop_request url = false) (λ _, True)); quiet.
Qed.

(** The [try] block of an item makes one detail request, the one of the
    item, whatever happens after it. *)
Lemma movie_meta_try_trace meta_id st :
  loop_requests (movie_meta_try net meta_id st).2
  = loop_requests st ++ [meta_url "movie" meta_id].
Proof.
  unfold movie_meta_try. rewrite bind_fetch.
  rewrite <- (loop_requests_add st (meta_url "movie" meta_id)) by reflexivity.
  set (st0 := add_request st (meta_url "movie" meta_id)).
  destruct (Py.truthy _); [|done].
  destruct (Py.get _ "meta") as [meta|e];
    [rewrite bind_lift_ok|by rewrite bind_lift_raise].
  destruct (Py.truthy meta); [|done].
  destruct (Py.index _ "meta") as [item|e];
    [rewrite bind_lift_ok|by rewrite bind_lift_raise].
  apply fetch_and_emit_quiet.
Qed.

Lemma series_meta_try_trace meta_id st :
  loop_requests (series_meta_try net meta_id st).2
  = loop_requests st ++ [meta_url "series" meta_id].
Proof.
  unfold series_meta_try. rewrite bind_fetch.
  rewrite <- (loop_requests_add st (meta_url "series" meta_id)) by reflexivity.
  set (st0 := add_request st (meta_url "series" meta_id)).
  destruct (Py.truthy _); [|done].
  destruct (Py.get _ "meta") as [meta|e];
    [rewrite bind_lift_ok|by rewrite bind_lift_raise].
  destruct (Py.truthy meta); [|done].
  destruct (Py.index _ "meta") as [item|e];
    [rewrite bind_lift_ok|by rewrite bind_lift_raise].
  destruct (Py.get item "videos") as [videos|e];
    [rewrite bind_lift_ok|by rewrite bind_lift_raise].
  destruct (Py.truthy videos); [|done].
  destruct (Py.index item "videos") as [videos'|e];
    [rewrite bind_lift_ok|by rewrite bind_lift_raise].
  destruct (Py.iter videos') as [video_list|e];
    [rewrite bind_lift_ok|by rewrite bind_lift_raise].
  apply episodes_loop_quiet.
Qed.

End ItemTrace.

Section PageTrace.

Variables (net : string → option json) (catalog_url : nat → string)
  (meta_try : json → M unit) (kind : string).

Hypothesis catalog_url_loop : ∀ skip, is_loop_request (catalog_url skip) = true.
Hypothesis meta_try_trace :
  ∀ meta_id st,
    loop_requests (meta_try meta_id st).2 = loop_requests st ++ [meta_url kind meta_id].

Lemma meta_body_trace fields st :
  loop_requests (meta_body meta_try (JObj fields) st).2
  = loop_requests st ++ detail_urls kind [JObj fields].
Proof.
  rewrite detail_urls_one. unfold meta_body. cbn [Py.get_default item_id].
  rewrite bind_lift_ok. destruct (Py.truthy _).
  - unfold try_pass. rewrite <- meta_try_trace.
    by destruct (meta_try _ st) as [[[]|e] st1].
  - cbn. by rewrite app_nil_r.
Qed.

Lemma metas_loop_trace metas st :
  Forall (λ meta, ∃ meta_fields, meta = JObj meta_fields) metas →
  loop_requests (for_each metas (meta_body meta_try) st).2
  = loop_requests st ++ detail_urls kind metas.
Proof.
  intros H. revert st. induction H as [|meta metas [fields ->] _ IH]; intros st.
  - cbn. by rewrite app_nil_r.
  - cbn [for_each]. rewrite bind_run.
    pose proof (meta_body_record_ok meta_try fields st) as Hok.
    pose proof (meta_body_trace fields st) as Htrace.
    destruct (meta_body meta_try (JObj fields) st) as [[[]|e] st1]; [|done].
    cbn [snd] in Htrace. rewrite IH, Htrace, <- app_assoc.
    by rewrite <- detail_urls_app.
Qed.

Lemma turn_trace skip count st metas :
  listing (page_at net catalog_url skip) metas →
  ∃ st', catalog_page net catalog_url meta_try skip count st
         = (Ok (Next (count + length metas)), st')
         ∧ loop_requests st'
           = loop_requests st ++ catalog_url skip :: detail_urls kind metas.
Proof.
  intros (fields & Hpage & Hlook & Hne & Hrecords).
  unfold catalog_page. rewrite bind_fetch. fold (page_at net catalog_url skip).
  rewrite Hpage. set (st0 := add_request st (catalog_url skip)).
  assert (field fields "metas" = JArr metas) as Hf by (unfold field; by rewrite Hlook).
  assert (Py.truthy (JArr metas) = true) as Hm by (by destruct metas).
  assert (Py.truthy (JObj fields) = true) as Ht by (by destruct fields).
  assert (Py.index (JObj fields) "metas" = Ok (JArr metas)) as Hidx
    by (unfold Py.index; by rewrite Hlook).
  rewrite Ht. cbn [negb]. rewrite get_obj, bind_lift_ok, Hf, Hm. cbn [negb].
  rewrite Hidx, bind_lift_ok, Hm. cbn [negb Py.len Py.iter].
  rewrite !bind_lift_ok, bind_run.
  pose proof (metas_loop_trace metas st0 Hrecords) as Htrace.
  assert ((for_each metas (meta_body meta_try) st0).1 = Ok ()) as Hok.
  { apply for_each_all_ok. eapply Forall_impl; [exact Hrecords|].
    intros meta [meta_fields ->] st1. apply meta_body_record_ok. }
  destruct (for_each metas (meta_body meta_try) st0) as [[[]|e] st1]; [|done].
  exists st1. split; [done|]. cbn [snd] in Htrace. rewrite Htrace. subst st0.
  rewrite loop_requests_add by done. by rewrite <- app_assoc.
Qed.

(** The page and detail requests of a loop that has ended. *)
Lemma loop_trace (listings : list (list json)) skip count st fuel r st' :
  (∀ j metas, listings !! j = Some metas →
     listing (page_at net catalog_url (skip + 100 * j)) metas) →
  ends_pagination (page_at net catalog_url (skip + 100 * length listings)) = true →
  paginate net catalog_url meta_try fuel skip count st = Some (r, st') →
  loop_requests st' = loop_requests st ++ page_trace catalog_url kind skip listings.
Proof.
  revert skip count st fuel.
  induction listings as [|metas listings IH]; intros skip count st fuel Hlist Hend;
    (destruct fuel as [|fuel]; [done|]); cbn [paginate].
  - cbn [length] in Hend. rewrite Nat.mul_0_r, Nat.add_0_r in Hend.
    rewrite (turn_ends _ _ _ _ _ _ Hend). intros [= <- <-].
    by apply loop_requests_add.
  - destruct (turn_trace skip count st metas) as (st1 & -> & Htrace).
    { specialize (Hlist 0 metas eq_refl). by rewrite Nat.mul_0_r, Nat.add_0_r in Hlist. }
    intros Hloop. apply IH in Hloop.
    + rewrite Hloop, Htrace. cbn [page_trace]. by rewrite <- app_assoc.
    + intros j metas' Hj. specialize (Hlist (S j) metas' Hj).
      by replace (skip + 100 + 100 * j) with (skip + 100 * S j) by lia.
    + cbn [length] in Hend.
      by replace (skip + 100 + 100 * length listings)
        with (skip + 100 * S (length listings)) by lia.
Qed.

End PageTrace.

Lemma paged_trace net source meta_id st :
  loop_requests (match source with
                 | DomaciMovies => movie_meta_try net
                 | DomaciSeries => series_meta_try net
                 end meta_id st).2
  = loop_requests st ++ [meta_url (kind_of source) meta_id].
Proof.
  destruct source; [apply movie_meta_try_trace|apply series_meta_try_trace].
Qed.

(** C5.  Each paginated loop requests the pages with cursor 0, 100, 200 and
    so on, one request per turn.  When the pages before the [k]-th list
    items and the [k]-th ends the pagination (nothing fetched, or [metas]
    absent or empty), the loop ends at that page, after [k + 1] page
    requests, having counted the items of the pages before it and having
    processed them: after the request for a page comes the detail request of
    each of its items that has an id, in the order of the page, then the
    request for the next page, and no detail request is made for anything
    else.  A loop that has ended without exception has ended that way and no
    other.  When every page lists items, the loop never ends.  So with 50
    items on the first page and an empty [metas] on the second, 50 items are
    counted, the page requests are those with cursor 0 and 100, and between
    them stand the detail requests of the items: 50 when every item has an
    id. *)
Theorem pagination_ends_at_first_empty_page net (source : paged) :
  (∀ (listings : list (list json)) fuel st,
     (∀ j metas, listings !! j = Some metas →
        listing (page_at net (catalog_url_of source) (100 * j)) metas) →
     ends_pagination (page_at net (catalog_url_of source) (100 * length listings)) = true →
     length listings < fuel →
     ∃ st', run_paged net source fuel st
            = Some (Ok (sum_list (length <$> listings)), st')
            ∧ catalog_requests st'
              = catalog_requests st
                  ++ page_urls (catalog_url_of source) 0 (S (length listings))
            ∧ loop_requests st'
              = loop_requests st
                  ++ page_trace (catalog_url_of source) (kind_of source) 0 listings)
  ∧ (∀ fuel st count st',
       run_paged net source fuel st = Some (Ok count, st') →
       ∃ k, k < fuel
            ∧ ends_pagination (page_at net (catalog_url_of source) (100 * k)) = true
            ∧ (∀ j, j < k →
                 ends_pagination (page_at net (catalog_url_of source) (100 * j)) = false)
            ∧ catalog_requests st'
              = catalog_requests st ++ page_urls (catalog_url_of source) 0 (S k))
  ∧ ((∀ k, ∃ metas, listing (page_at net (catalog_url_of source) (100 * k)) metas) →
     ∀ fuel st, run_paged net source fuel st = None)
  ∧ (∀ metas fuel st,
       length metas = 50 →
       listing (page_at net (catalog_url_of source) 0) metas →
       page_at net (catalog_url_of source) 100 = JObj [("metas", JArr [])] →
       2 ≤ fuel →
       ∃ st', run_paged net source fuel st = Some (Ok 50, st')
              ∧ catalog_requests st'
                = catalog_requests st
                    ++ [catalog_url_of source 0; catalog_url_of source 100]
              ∧ loop_requests st'
                = loop_requests st
                    ++ catalog_url_of source 0
                       :: detail_urls (kind_of source) metas
                       ++ [catalog_url_of source 100]
              ∧ (Forall has_id metas →
                 length (detail_urls (kind_of source) metas) = 50)).
Proof.
  pose proof (catalog_url_of_catalog source) as Hcat.
  pose proof (paged_item_requests net source) as Hitem.
  assert (∀ (listings : list (list json)) fuel st,
     (∀ j metas, listings !! j = Some metas →
        listing (page_at net (catalog_url_of source) (100 * j)) metas) →
     ends_pagination (page_at net (catalog_url_of source) (100 * length listings)) = true →
     length listings < fuel →
     ∃ st', run_paged net source fuel st
            = Some (Ok (sum_list (length <$> listings)), st')
            ∧ catalog_requests st'
              = catalog_requests st
                  ++ page_urls (catalog_url_of source) 0 (S (length listings))
            ∧ loop_requests st'
              = loop_requests st
                  ++ page_trace (catalog_url_of source) (kind_of source) 0 listings)
    as Hstops.
  { intros listings fuel st Hlist Hend Hfuel. rewrite run_paged_loop.
    destruct (loop_stops net _ _ Hcat Hitem listings 0 0 st fuel Hlist Hend Hfuel)
      as (st' & Hrun & Hpages).
    exists st'. split; [exact Hrun|]. split; [exact Hpages|].
    exact (loop_trace net _ _ (kind_of source) (catalog_url_of_loop source)
             (paged_trace net source) listings 0 0 st fuel _ st' Hlist Hend Hrun). }
  split; [exact Hstops|]. split; [|split].
  - intros fuel st count st'. rewrite run_paged_loop.
    exact (loop_done_inv net _ _ Hcat Hitem fuel 0 0 st count st').
  - intros Hall fuel st. rewrite run_paged_loop.
    exact (loop_forever net _ _ Hitem fuel 0 0 st Hall).
  - intros metas fuel st Hlen Hfirst Hsecond Hfuel.
    destruct (Hstops [metas] fuel st) as (st' & Hrun & Hreq & Htrace).
    + intros [|j] metas' Hj; simplify_eq/=. exact Hfirst.
    + change (100 * length [metas]) with 100. by rewrite Hsecond.
    + cbn. lia.
    + exists st'. cbn in Hrun. rewrite Hlen in Hrun.
      split; [done|]. split; [done|]. split; [exact Htrace|].
      intros Hids. by rewrite detail_urls_length.
Qed.

Lemma pagination_ends_at_first_empty_page_witness :
  ∃ st', run_paged net_fifty DomaciMovies 2 init = Some (Ok 50, st')
         ∧ catalog_requests st'
           = catalog_requests init ++ [movies_catalog_url 0; movies_catalog_url 100]
         ∧ loop_requests st'
           = loop_requests init
               ++ movies_catalog_url 0
                  :: detail_urls "movie" fifty_items ++ [movies_catalog_url 100]
         ∧ length (detail_urls "movie" fifty_items) = 50.
Proof.
  destruct (proj2 (proj2 (proj2 (pagination_ends_at_first_empty_page net_fifty DomaciMovies)))
              fifty_items 2 init) as (st' & Hrun & Hpages & Htrace & Hcount).
  - reflexivity.
  - exists [("metas", JArr fifty_items)].
    split; [reflexivity|]. split; [reflexivity|]. split; [discriminate|].
    apply Forall_fmap, Forall_forall. intros i _. by eexists.
  - reflexivity.
  - lia.
  - exists st'. split; [exact Hrun|]. split; [exact Hpages|]. split; [exact Htrace|].
    apply Hcount. apply Forall_fmap, Forall_forall. intros i _. reflexivity.
Defined.


(** * Beyond the claims *)

(** ** More on strings *)

Lemma app_cons c a b : String c a +:+ b = String c (a +:+ b).
Proof. reflexivity. Qed.

Lemma app_empty_l b : "" +:+ b = b.
Proof. reflexivity. Qed.

Lemma app_empty_r a : a +:+ "" = a.
Proof. induction a as [|c a IH]; [done|]. by rewrite app_cons, IH. Qed.

Lemma startswith_app p t : PyStr.startswith p (p +:+ t) = true.
Proof.
  induction p as [|a p IH]; [done|]. rewrite app_cons. cbn [PyStr.startswith].
  by rewrite decide_True.
Qed.

Lemma startswith_inv p s : PyStr.startswith p s = true → ∃ t, s = p +:+ t.
Proof.
  revert s. induction p as [|a p IH]; intros s; [by exists s|].
  destruct s as [|b s]; [done|]. cbn [PyStr.startswith].
  destruct (decide (a = b)) as [->|]; [|done].
  intros [t ->]%IH. by exists t.
Qed.

Lemma startswith_app_mono p s t :
  PyStr.startswith p s = true → PyStr.startswith p (s +:+ t) = true.
Proof.
  intros [u ->]%startswith_inv. rewrite string_app_assoc. apply startswith_app.
Qed.

Lemma contains_here p s : PyStr.startswith p s = true → PyStr.contains p s = true.
Proof. destruct s; [done|]. cbn [PyStr.contains]. by intros ->. Qed.

Lemma contains_app_r p a b : PyStr.contains p b = true → PyStr.contains p (a +:+ b) = true.
Proof.
  intros H. induction a as [|c a IH]; [done|]. rewrite app_cons. cbn [PyStr.contains].
  by rewrite IH, orb_true_r.
Qed.

Lemma contains_app_l p a b : PyStr.contains p a = true → PyStr.contains p (a +:+ b) = true.
Proof.
  induction a as [|c a IH].
  - cbn. intros H. apply contains_here. by destruct p.
  - rewrite app_cons. cbn [PyStr.contains]. intros [H|H]%orb_true_iff.
    + rewrite <- app_cons. by rewrite (startswith_app_mono _ _ _ H).
    + by rewrite (IH H), orb_true_r.
Qed.

Lemma contains_middle p a b : PyStr.contains p (a +:+ p +:+ b) = true.
Proof. apply contains_app_r, contains_here, startswith_app. Qed.

Lemma has_char_app c a b :
  Py.has_char c (a +:+ b) = Py.has_char c a || Py.has_char c b.
Proof.
  induction a as [|x a IH]; [done|]. rewrite app_cons. cbn [Py.has_char].
  by rewrite IH, orb_assoc.
Qed.

(** ** The poster pattern *)

Lemma span_decimal_split s :
  s = (PyStr.span_decimal s).1 +:+ (PyStr.span_decimal s).2
  ∧ PyStr.all_chars PyStr.decimal_char (PyStr.span_decimal s).1 = true.
Proof.
  induction s as [|c s [IH1 IH2]]; [done|]. cbn [PyStr.span_decimal].
  destruct (PyStr.decimal_char c) eqn:Hc; [|done].
  destruct (PyStr.span_decimal s) as [ds rest]. cbn in *.
  rewrite app_cons, <- IH1, Hc. done.
Qed.

Lemma span_decimal_stop c t :
  PyStr.decimal_char c = false → PyStr.span_decimal (String c t) = ("", String c t).
Proof. intros H. cbn. by rewrite H. Qed.

Lemma span_decimal_app d c t :
  PyStr.all_chars PyStr.decimal_char d = true →
  PyStr.decimal_char c = false →
  PyStr.span_decimal (d +:+ String c t) = (d, String c t).
Proof.
  intros Hd Hc. induction d as [|x d IH]; [by apply span_decimal_stop|].
  cbn [PyStr.all_chars] in Hd. apply andb_true_iff in Hd as [Hx Hd].
  rewrite app_cons. cbn [PyStr.span_decimal]. by rewrite Hx, (IH Hd).
Qed.

Lemma span_decimal_slash b t :
  PyStr.span_decimal (b +:+ String "/" t)
  = ((PyStr.span_decimal b).1, (PyStr.span_decimal b).2 +:+ String "/" t).
Proof.
  induction b as [|c b IH]; [done|]. rewrite app_cons. cbn [PyStr.span_decimal].
  destruct (PyStr.decimal_char c); [|done].
  rewrite IH. by destruct (PyStr.span_decimal b).
Qed.

Lemma startswith_before p c r t :
  Py.has_char c p = false →
  PyStr.startswith p (r +:+ String c t) = PyStr.startswith p r.
Proof.
  revert r. induction p as [|a p IH]; intros r Hp; [done|].
  cbn [Py.has_char] in Hp. apply orb_false_iff in Hp as [Hac Hp].
  rewrite bool_decide_eq_false in Hac.
  destruct r as [|b r].
  - rewrite app_empty_l. cbn [PyStr.startswith]. rewrite decide_False; [done|congruence].
  - rewrite app_cons. cbn [PyStr.startswith]. destruct (decide (a = b)); [by apply IH|done].
Qed.

(** What [search_jpg_stem] does at a slash, in terms of the rest. *)
Lemma search_at_slash s :
  PyStr.search_jpg_stem (String "/" s)
  = if bool_decide ((PyStr.span_decimal s).1 ≠ "")
       && PyStr.startswith ".jpg" (PyStr.span_decimal s).2
    then Some (PyStr.span_decimal s).1
    else PyStr.search_jpg_stem s.
Proof.
  cbn [PyStr.search_jpg_stem]. rewrite decide_True by done.
  destruct (PyStr.span_decimal s) as [[|x ds] rest]; cbn [fst snd]; [done|].
  rewrite bool_decide_true by done. by destruct (PyStr.startswith ".jpg" rest).
Qed.

Lemma search_not_slash c s :
  c ≠ "/"%char → PyStr.search_jpg_stem (String c s) = PyStr.search_jpg_stem s.
Proof. intros H. cbn [PyStr.search_jpg_stem]. by rewrite decide_False. Qed.

(** X2.  On a text that holds a slash, a non-empty run of digits and [.jpg],
    the search returns the leftmost match: the stem found before that
    place, if there is one, and the run of digits otherwise. *)
Theorem search_jpg_stem_leftmost base d rest :
  decimal_string d →
  PyStr.search_jpg_stem (base +:+ String "/" (d +:+ ".jpg" +:+ rest))
  = match PyStr.search_jpg_stem base with
    | Some found => Some found
    | None => Some d
    end.
Proof.
  intros [Hne Hd]. set (tail := d +:+ ".jpg" +:+ rest).
  assert (PyStr.span_decimal tail = (d, ".jpg" +:+ rest)) as Htail
    by (by apply span_decimal_app).
  induction base as [|c base IH].
  - rewrite app_empty_l, search_at_slash, Htail. cbn [fst snd].
    rewrite bool_decide_true by done. by rewrite startswith_app.
  - rewrite app_cons. destruct (decide (c = "/"%char)) as [->|Hc].
    + rewrite !search_at_slash, span_decimal_slash. cbn [fst snd].
      rewrite startswith_before by done.
      destruct (_ && _); [done|exact IH].
    + by rewrite !search_not_slash.
Qed.

Lemma search_jpg_stem_leftmost_witness :
  PyStr.search_jpg_stem ("https://image.tmdb.org/t/p/w500" +:+ String "/" ("500" +:+ ".jpg" +:+ ""))
  = Some "500".
Proof.
  apply (search_jpg_stem_leftmost "https://image.tmdb.org/t/p/w500" "500" "").
  split; [discriminate|reflexivity].
Defined.

(** A stem that is found is a non-empty run of digits
    that stands in the text between a slash and [.jpg], and the text before
    that slash holds no match. *)
Lemma search_jpg_stem_sound s d :
  PyStr.search_jpg_stem s = Some d →
  ∃ base rest, s = base +:+ String "/" (d +:+ ".jpg" +:+ rest)
               ∧ decimal_string d ∧ PyStr.search_jpg_stem base = None.
Proof.
  revert d. induction s as [|c s IH]; intros d; [done|].
  destruct (decide (c = "/"%char)) as [->|Hc].
  - rewrite search_at_slash. destruct (span_decimal_split s) as [Hs Hds].
    destruct (bool_decide _ && _) eqn:Hhere.
    + intros [= <-]. apply andb_true_iff in Hhere as [Hne Hjpg].
      rewrite bool_decide_eq_true in Hne. apply startswith_inv in Hjpg as [rest Hrest].
      exists "", rest. rewrite app_empty_l, <- Hrest, <- Hs. done.
    + intros (base & rest & -> & Hd & Hbase)%IH.
      exists (String "/" base), rest. split; [done|]. split; [done|].
      rewrite search_at_slash, Hbase.
      rewrite span_decimal_slash in Hhere. cbn [fst snd] in Hhere.
      rewrite startswith_before in Hhere by done. by rewrite Hhere.
  - rewrite search_not_slash by done.
    intros (base & rest & -> & Hd & Hbase)%IH.
    exists (String c base), rest. split; [done|]. split; [done|].
    by rewrite search_not_slash.
Qed.

Lemma extract_str s :
  extract_tmdb_from_poster (JStr s)
  = Ok (if PyStr.contains "tmdb.org" s then PyStr.search_jpg_stem s else None).
Proof.
  unfold extract_tmdb_from_poster. cbn [Py.truthy Py.contains mbind result_bind Py.search_jpg_stem].
  destruct s as [|c s]; [done|]. rewrite bool_decide_false by done. cbn [negb].
  by destruct (PyStr.contains "tmdb.org" (String c s)).
Qed.

Lemma extract_non_string poster :
  ¬ is_string poster →
  extract_tmdb_from_poster poster = Ok None
  ∨ (extract_tmdb_from_poster poster = Raise TypeError ∧ Py.truthy poster = true).
Proof.
  intros Hns. unfold extract_tmdb_from_poster.
  destruct poster as [| b | n | url | items | flds]; cbn [Py.truthy].
  - by left.
  - destruct b; [by right|by left].
  - destruct (n =? 0)%Z; [by left|by right].
  - destruct Hns. by exists url.
  - destruct items as [|x items]; [by left|]. rewrite bool_decide_false by done.
    cbn [negb Py.contains mbind result_bind]. destruct (existsb _ _); [by right|by left].
  - destruct flds as [|x flds]; [by left|]. rewrite bool_decide_false by done.
    cbn [negb Py.contains mbind result_bind]. destruct (existsb _ _); [by right|by left].
Qed.

Lemma extract_found_decimal poster d :
  extract_tmdb_from_poster poster = Ok (Some d) → decimal_string d.
Proof.
  intros H. destruct (decide (is_string poster)) as [[url ->]|Hns].
  - rewrite extract_str in H. destruct (PyStr.contains "tmdb.org" url); [|done].
    injection H as (base & rest & _ & Hd & _)%search_jpg_stem_sound. done.
  - destruct (extract_non_string poster Hns) as [E|[E _]]; rewrite E in H; discriminate.
Qed.

Lemma extract_raises_cause poster e :
  extract_tmdb_from_poster poster = Raise e →
  e = TypeError ∧ Py.truthy poster = true ∧ ¬ is_string poster.
Proof.
  intros H. destruct (decide (is_string poster)) as [[url ->]|Hns].
  - by rewrite extract_str in H.
  - destruct (extract_non_string poster Hns) as [E|[E Ht]]; rewrite E in H; [done|].
    by injection H as <-.
Qed.

(** X1.  When [extract_tmdb_from_poster] returns an ID, the poster is a
    string that mentions the host [tmdb.org], the ID is a non-empty run of
    digits standing in it between a slash and [.jpg], and no such run stands
    before it. *)
Theorem extract_tmdb_from_poster_sound poster d :
  extract_tmdb_from_poster poster = Ok (Some d) →
  ∃ url base rest,
    poster = JStr url
    ∧ PyStr.contains "tmdb.org" url = true
    ∧ url = base +:+ String "/" (d +:+ ".jpg" +:+ rest)
    ∧ decimal_string d
    ∧ PyStr.search_jpg_stem base = None.
Proof.
  intros H. destruct (decide (is_string poster)) as [[url ->]|Hns]; cycle 1.
  { destruct (extract_non_string poster Hns) as [E|[E _]]; rewrite E in H; discriminate. }
  rewrite extract_str in H. destruct (PyStr.contains "tmdb.org" url) eqn:Hhost; [|done].
  injection H as (base & rest & -> & Hd & Hbase)%search_jpg_stem_sound.
  exists (base +:+ String "/" (d +:+ ".jpg" +:+ rest)), base, rest. done.
Qed.

Lemma extract_tmdb_from_poster_sound_witness :
  ∃ url base rest,
    poster_999 = JStr url
    ∧ PyStr.contains "tmdb.org" url = true
    ∧ url = base +:+ String "/" ("999" +:+ ".jpg" +:+ rest)
    ∧ decimal_string "999"
    ∧ PyStr.search_jpg_stem base = None.
Proof. apply (extract_tmdb_from_poster_sound poster_999 "999"). reflexivity. Defined.

(** X3.  [extract_tmdb_from_poster] returns [None] for a falsy poster and
    for a string that does not mention the host; on a string it never
    raises; and when it raises, it raises [TypeError] on a truthy value that
    is not a string. *)
Theorem extract_tmdb_from_poster_errors :
  (∀ poster, Py.truthy poster = false → extract_tmdb_from_poster poster = Ok None)
  ∧ (∀ url, PyStr.contains "tmdb.org" url = false →
       extract_tmdb_from_poster (JStr url) = Ok None)
  ∧ (∀ url, ∃ found, extract_tmdb_from_poster (JStr url) = Ok found)
  ∧ (∀ poster e, extract_tmdb_from_poster poster = Raise e →
       e = TypeError ∧ Py.truthy poster = true ∧ ¬ is_string poster).
Proof.
  split; [|split; [|split]].
  - intros poster H. unfold extract_tmdb_from_poster. by rewrite H.
  - intros url H. by rewrite extract_str, H.
  - intros url. rewrite extract_str. eauto.
  - intros poster e H. by apply extract_raises_cause.
Qed.

Lemma extract_tmdb_from_poster_errors_witness :
  extract_tmdb_from_poster (JStr "https://example.org/500.jpg") = Ok None
  ∧ extract_tmdb_from_poster (JInt 5) = Raise TypeError.
Proof.
  split.
  - apply (proj1 (proj2 extract_tmdb_from_poster_errors)). reflexivity.
  - reflexivity.
Defined.

(** ** The three ways [tmdb_id] is resolved *)

Lemma resolve_cases fields :
  (∃ s, field fields "id" = JStr s
        ∧ PyStr.startswith "tt" s || PyStr.isdigit s = true
        ∧ resolve_tmdb_id (JObj fields) = Ok (Some (PyStr.replace "tt" "" s)))
  ∨ (unusable_id fields
     ∧ resolve_tmdb_id (JObj fields) = extract_tmdb_from_poster (field fields "poster"))
  ∨ (Py.truthy (field fields "id") = true ∧ ¬ is_string (field fields "id")
     ∧ resolve_tmdb_id (JObj fields) = Raise AttributeError).
Proof.
  assert (unusable_id fields →
          resolve_tmdb_id (JObj fields) = extract_tmdb_from_poster (field fields "poster"))
    as Hfallback.
  { intros Hun. unfold resolve_tmdb_id. rewrite !get_obj. cbn [mbind result_bind].
    assert (∀ usable : result bool, usable = Ok false →
              (usable ≫= λ usable : bool,
                 if usable
                 then Py.index (JObj fields) "id"
                      ≫= λ id_value, Py.replace id_value "tt" ""
                      ≫= λ stripped, Ok (Some stripped)
                 else if Py.truthy (field fields "poster")
                      then Py.index (JObj fields) "poster"
                           ≫= λ poster_url, extract_tmdb_from_poster poster_url
                      else Ok None)
              = extract_tmdb_from_poster (field fields "poster")) as Hrest.
    { intros usable ->. cbn [mbind result_bind].
      destruct (Py.truthy (field fields "poster")) eqn:Hp.
      - by rewrite (index_truthy _ _ Hp).
      - unfold extract_tmdb_from_poster. by rewrite Hp. }
    apply Hrest. destruct Hun as [Hf|(s & Hs & Htt & Hdig)]; [by rewrite Hf|].
    destruct (Py.truthy (field fields "id")) eqn:Ht; [|done].
    rewrite (index_truthy _ _ Ht), Hs. cbn [mbind result_bind Py.startswith Py.isdigit].
    by rewrite Htt, Hdig. }
  destruct (Py.truthy (field fields "id")) eqn:Ht;
    [|right; left; split; [by left|]; apply Hfallback; by left].
  destruct (decide (is_string (field fields "id"))) as [[s Hs]|Hns].
  - destruct (PyStr.startswith "tt" s || PyStr.isdigit s) eqn:Huse.
    + left. exists s. split; [done|]. split; [done|]. apply resolve_own_id; [|done].
      unfold field in Hs. destruct (Py.lookup_field "id" fields); by simplify_eq/=.
    + right; left. apply orb_false_iff in Huse as [Htt Hdig].
      assert (unusable_id fields) as Hun by (right; by exists s). auto.
  - right; right. split; [done|]. split; [done|].
    unfold resolve_tmdb_id. rewrite !get_obj. cbn [mbind result_bind].
    rewrite Ht, (index_truthy _ _ Ht).
    destruct (field fields "id"); try done. destruct Hns. by eexists.
Qed.

Lemma create_extinf_obj fields content_type :
  create_extinf (JObj fields) content_type
  = match resolve_tmdb_id (JObj fields) with
    | Ok tmdb_id => Ok (render (header_of fields content_type tmdb_id))
    | Raise e => Raise e
    end.
Proof.
  unfold create_extinf. destruct (resolve_tmdb_id (JObj fields)) as [tmdb_id|e] eqn:Hid.
  - by rewrite (create_extinf_header_obj _ _ _ Hid).
  - unfold create_extinf_header. by rewrite Hid.
Qed.

(** X4.  When the identifier gives no external ID, the ID is the one that
    [extract_tmdb_from_poster] finds in the poster: the header has a tvg-id
    field with that value when it finds one, and no tvg-id field when it
    finds none. *)
Theorem poster_fallback fields content_type found :
  unusable_id fields →
  extract_tmdb_from_poster (field fields "poster") = Ok found →
  ∃ h, create_extinf_header (JObj fields) content_type = Ok h
       ∧ ∀ v, tvg_id_part v ∈ parts h ↔ found = Some v.
Proof.
  intros Hun Hfound.
  destruct (resolve_cases fields) as [(s & Hs & Huse & _)|[[_ Hres]|(Ht & Hns & _)]].
  - destruct Hun as [Hf|(s' & Hs' & Htt & Hdig)].
    + rewrite Hs in Hf. destruct s; [by cbn in Huse|by cbn in Hf].
    + rewrite Hs in Hs'. injection Hs' as <-. by rewrite Htt, Hdig in Huse.
  - rewrite Hfound in Hres. exists (header_of fields content_type found).
    split; [by apply create_extinf_header_obj|].
    intros v. rewrite tvg_id_in_header. split; [by intros [_ ?]|].
    intros ->. split; [|done].
    apply extract_found_decimal in Hfound as [Hne _].
    by destruct v.
  - destruct Hun as [Hf|(s' & Hs' & _)]; [congruence|]. destruct Hns. by exists s'.
Qed.

Lemma poster_fallback_witness :
  ∃ h, create_extinf_header (JObj item_poster_only) "series" = Ok h
       ∧ ∀ v, tvg_id_part v ∈ parts h ↔ Some "999" = Some v.
Proof.
  apply (poster_fallback item_poster_only "series" (Some "999")).
  - right. exists "bau-7". repeat split.
  - reflexivity.
Defined.

(** X5.  [create_extinf] raises [AttributeError] on a value that is not a
    record; on a record it raises only [AttributeError], for an identifier
    that is truthy and not a string, or [TypeError], for a poster that is
    truthy and not a string, and never [KeyError]; it returns a header
    whenever the identifier and the poster are missing or strings. *)
Theorem create_extinf_errors :
  (∀ item content_type,
     (∀ fields, item ≠ JObj fields) → create_extinf item content_type = Raise AttributeError)
  ∧ (∀ fields content_type e,
       create_extinf (JObj fields) content_type = Raise e →
       (e = AttributeError ∧ Py.truthy (field fields "id") = true
        ∧ ¬ is_string (field fields "id"))
       ∨ (e = TypeError ∧ Py.truthy (field fields "poster") = true
          ∧ ¬ is_string (field fields "poster")))
  ∧ (∀ item content_type, create_extinf item content_type ≠ Raise KeyError)
  ∧ (∀ fields content_type,
       string_or_absent fields "id" → string_or_absent fields "poster" →
       ∃ s, create_extinf (JObj fields) content_type = Ok s).
Proof.
  assert (∀ fields content_type e,
       create_extinf (JObj fields) content_type = Raise e →
       (e = AttributeError ∧ Py.truthy (field fields "id") = true
        ∧ ¬ is_string (field fields "id"))
       ∨ (e = TypeError ∧ Py.truthy (field fields "poster") = true
          ∧ ¬ is_string (field fields "poster"))) as Hcause.
  { intros fields content_type e. rewrite create_extinf_obj.
    destruct (resolve_cases fields) as [(s & _ & _ & ->)|[[_ ->]|(Ht & Hns & ->)]]; [done| |].
    - destruct (extract_tmdb_from_poster (field fields "poster")) as [|e'] eqn:Hx; [done|].
      intros [= <-]. right.
      by apply extract_raises_cause in Hx.
    - intros [= <-]. by left. }
  assert (∀ item content_type,
            (∀ fields, item ≠ JObj fields) →
            create_extinf item content_type = Raise AttributeError) as Hnonrec.
  { intros item content_type Hno. destruct item; try done. by destruct (Hno fields). }
  split; [exact Hnonrec|]. split; [exact Hcause|]. split.
  - intros item content_type H. destruct item as [| | | | |fields];
      try (rewrite Hnonrec in H; [discriminate|done]).
    apply Hcause in H as [[? _]|[? _]]; discriminate.
  - intros fields content_type Hid Hposter.
    destruct (create_extinf (JObj fields) content_type) as [s|e] eqn:Hrun; [by exists s|].
    assert (∀ k, string_or_absent fields k → Py.truthy (field fields k) = true →
                 is_string (field fields k)) as Hstr.
    { intros k [Hk|[s Hk]]; unfold field; rewrite Hk; [done|]. by exists s. }
    apply Hcause in Hrun as [(_ & Ht & Hns)|(_ & Ht & Hns)]; destruct Hns; auto.
Qed.

Lemma create_extinf_errors_witness :
  ∃ s, create_extinf (JObj item_tt123) "movie" = Ok s.
Proof.
  apply (proj2 (proj2 (proj2 create_extinf_errors)) item_tt123 "movie").
  - right. by exists "tt123".
  - right. by eexists.
Defined.

(** ** X6: a header is one line *)

Lemma one_line_app a b : one_line a → one_line b → one_line (a +:+ b).
Proof. unfold one_line. rewrite has_char_app. by intros -> ->. Qed.

Lemma join_one_line sep parts :
  one_line sep → Forall one_line parts → one_line (PyStr.join sep parts).
Proof.
  intros Hsep. induction 1 as [|p parts Hp Hparts IH]; [done|].
  destruct parts as [|q parts]; [done|].
  change (one_line (p +:+ sep +:+ PyStr.join sep (q :: parts))).
  auto using one_line_app.
Qed.

Lemma quoted_one_line s : one_line s → one_line (PyStr.quoted s).
Proof.
  intros H. unfold PyStr.quoted. rewrite app_cons. unfold one_line. cbn [Py.has_char].
  rewrite has_char_app, H. done.
Qed.

Lemma replace_go_one_line old k s : one_line s → one_line (PyStr.replace_go old "" k s).
Proof.
  unfold one_line. revert k. induction s as [|c s IH]; intros k; [done|].
  cbn [Py.has_char PyStr.replace_go]. intros [Hc Hs]%orb_false_iff.
  destruct k; [|by apply IH]. destruct (PyStr.startswith old (String c s)).
  - rewrite app_empty_l. by apply IH.
  - cbn [Py.has_char]. by rewrite Hc, IH.
Qed.

Lemma decimal_one_line d : PyStr.all_chars PyStr.decimal_char d = true → one_line d.
Proof.
  unfold one_line. induction d as [|c d IH]; [done|]. cbn [PyStr.all_chars Py.has_char].
  intros [Hc Hd]%andb_true_iff. rewrite (IH Hd), orb_false_r.
  apply bool_decide_eq_false. by intros <-.
Qed.

Lemma render_one_line fields content_type tmdb_id :
  (∀ d, tmdb_id = Some d → one_line d) →
  one_line (Py.str (name_of fields)) →
  one_line (Py.str (field fields "poster")) →
  one_line (Py.str (field fields "year")) →
  one_line (render (header_of fields content_type tmdb_id)).
Proof.
  intros Hid Hname Hposter Hyear. unfold render, header_of. cbn [parts title].
  apply one_line_app; [|apply one_line_app; [done|]].
  - apply join_one_line; [done|]. repeat apply Forall_app_2; repeat constructor; try done.
    + destruct (tmdb_truthy tmdb_id) eqn:Ht; constructor; [|done].
      destruct tmdb_id as [d|]; [|done]. cbn [default from_option id].
      unfold tvg_id_part. apply one_line_app; [done|]. by apply quoted_one_line, Hid.
    + unfold tvg_name_part. apply one_line_app; [done|]. by apply quoted_one_line.
    + destruct (Py.truthy _); constructor; [|done].
      unfold tvg_logo_part. apply one_line_app; [done|]. by apply quoted_one_line.
    + unfold group_title_part. by destruct (bool_decide _).
  - destruct (Py.truthy _); [|done]. repeat apply one_line_app; done.
Qed.

(** X6.  The header built for a record holds no line feed when the texts of
    its identifier, name, poster and year hold none. *)
Theorem header_one_line fields content_type s :
  create_extinf (JObj fields) content_type = Ok s →
  one_line (Py.str (field fields "id")) →
  one_line (Py.str (name_of fields)) →
  one_line (Py.str (field fields "poster")) →
  one_line (Py.str (field fields "year")) →
  one_line s.
Proof.
  rewrite create_extinf_obj. intros Hrun Hid Hname Hposter Hyear.
  destruct (resolve_tmdb_id (JObj fields)) as [tmdb_id|] eqn:Hres; [|done].
  injection Hrun as <-. apply render_one_line; try done.
  intros d ->.
  destruct (resolve_cases fields) as [(s & Hs & _ & Hown)|[[_ Hx]|(_ & _ & Hr)]].
  - rewrite Hres in Hown. injection Hown as ->. rewrite Hs in Hid.
    by apply replace_go_one_line.
  - rewrite Hres in Hx. symmetry in Hx.
    apply extract_found_decimal in Hx as [_ Hd].
    by apply decimal_one_line.
  - by rewrite Hres in Hr.
Qed.

Lemma header_one_line_witness :
  one_line ("#EXTINF:-1 tvg-id=" +:+ PyStr.quoted "7" +:+ " tvg-name=" +:+ PyStr.quoted "Foo"
              +:+ " tvg-logo=" +:+ PyStr.quoted "https://image.tmdb.org/t/p/w500/999.jpg"
              +:+ " group-title=" +:+ PyStr.quoted "Movies" +:+ ", Foo (1999)").
Proof. apply (header_one_line item_plain "movie"); reflexivity. Defined.

(** ** X7: what the summary looks for is in the headers *)

Lemma contains_join_prefix m sep p parts :
  PyStr.startswith m p = true → p ∈ parts → PyStr.contains m (PyStr.join sep parts) = true.
Proof.
  intros Hm. induction parts as [|q parts IH]; [by intros ?%elem_of_nil|].
  intros [<-|Hin]%elem_of_cons.
  - destruct parts as [|q' parts]; [by apply contains_here|].
    change (PyStr.contains m (p +:+ sep +:+ PyStr.join sep (q' :: parts)) = true).
    by apply contains_app_l, contains_here.
  - destruct parts as [|q' parts]; [by apply elem_of_nil in Hin|].
    change (PyStr.contains m (q +:+ sep +:+ PyStr.join sep (q' :: parts)) = true).
    by apply contains_app_r, contains_app_r, IH.
Qed.

Lemma startswith_refl p : PyStr.startswith p p = true.
Proof. rewrite <- (app_empty_r p) at 2. apply startswith_app. Qed.

Lemma header_holds_group item content_type s :
  create_extinf item content_type = Ok s →
  PyStr.contains (group_title_part (group_of content_type)) s = true.
Proof.
  unfold create_extinf.
  destruct (create_extinf_header item content_type) as [h|] eqn:Hh; [|done].
  intros [= <-].
  apply create_extinf_header_inv in Hh as (fields & tmdb_id & _ & _ & ->).
  unfold render. apply contains_app_l.
  apply contains_join_prefix with (group_title_part (group_of content_type));
    [apply startswith_refl|].
  unfold header_of. cbn [parts]. rewrite !elem_of_app.
  do 4 right. by apply list_elem_of_singleton.
Qed.

(** X7.  The summary counts by looking for a text in the header, and finds
    what [create_extinf] wrote: every header holds the group field of its
    content type, and a header built with a tvg-id field holds the text
    the summary looks for. *)
Theorem summary_tests_find_fields item content_type s :
  create_extinf item content_type = Ok s →
  PyStr.contains (group_title_part (group_of content_type)) s = true
  ∧ ∀ h v, create_extinf_header item content_type = Ok h → tvg_id_part v ∈ parts h →
           PyStr.contains tvg_id_marker s = true.
Proof.
  intros Hs. split; [by apply (header_holds_group item)|].
  intros h v Hh Hin. unfold create_extinf in Hs. rewrite Hh in Hs.
  injection Hs as <-. unfold render. apply contains_app_l.
  by apply contains_join_prefix with (tvg_id_part v).
Qed.

Lemma summary_tests_find_fields_witness :
  PyStr.contains (group_title_part (group_of "movie")) header_A = true.
Proof.
  exact (proj1 (summary_tests_find_fields (JObj movie_two_streams) "movie" header_A eq_refl)).
Defined.

(** ** X8, X9: the sources only append *)

Global Instance grows_by_preorder P : PreOrder (grows_by P).
Proof.
  split.
  - intros st. split; exists []; by rewrite app_nil_r.
  - intros st1 st2 st3 [(n1 & E1 & F1) (m1 & R1)] [(n2 & E2 & F2) (m2 & R2)]. split.
    + exists (n1 ++ n2). rewrite E2, E1, app_assoc. split; [done|]. by apply Forall_app.
    + exists (m1 ++ m2). by rewrite R2, R1, app_assoc.
Qed.

Lemma grows_fetch P st url : True → grows_by P st (add_request st url).
Proof. intros _. split; [exists []; cbn; by rewrite app_nil_r|by exists [url]]. Qed.

Lemma grows_append P st e : P e → grows_by P st (add_entries st [e]).
Proof.
  intros He. split; [exists [e]; by split; [|constructor]|].
  exists []. cbn. by rewrite app_nil_r.
Qed.

Lemma built_header item content_type h (url : json) :
  create_extinf item content_type = Ok h → built (h, url).
Proof. intros H. by exists item, content_type. Qed.

Ltac grows_side :=
  first [ exact (grows_fetch _) | exact (grows_append _) | exact built_header
        | by intros ].

Lemma static_catalog_grows net st : grows_by built st (static_catalog net st).2.
Proof.
  apply (within_static_catalog (grows_by built) (λ _, True) (λ _, True) built); grows_side.
Qed.

Lemma domaci_movies_grows net fuel st r st' :
  domaci_movies net fuel st = Some (r, st') → grows_by built st st'.
Proof.
  intros H.
  eapply (within_paginate (grows_by built) (λ _, True) (λ _, True)); [..|exact H];
    try grows_side.
  intros meta_id.
  apply (within_movie_meta_try (grows_by built) (λ _, True) (λ _, True) built); grows_side.
Qed.

Lemma domaci_series_grows net fuel st r st' :
  domaci_series net fuel st = Some (r, st') → grows_by built st st'.
Proof.
  intros H.
  eapply (within_paginate (grows_by built) (λ _, True) (λ _, True)); [..|exact H];
    try grows_side.
  intros meta_id.
  apply (within_series_meta_try (grows_by built) (λ _, True) (λ _, True) built); grows_side.
Qed.

(** X8.  Each of the three sources only appends to [all_entries] and to the
    log of requests, also when it ends in an exception; every entry it adds
    carries a header that [create_extinf] returned. *)
Theorem sources_only_append net :
  (∀ st, grows_by built st (static_catalog net st).2)
  ∧ (∀ fuel st r st', domaci_movies net fuel st = Some (r, st') → grows_by built st st')
  ∧ (∀ fuel st r st', domaci_series net fuel st = Some (r, st') → grows_by built st st').
Proof.
  split; [|split].
  - apply static_catalog_grows.
  - intros fuel st r st'. apply domaci_movies_grows.
  - intros fuel st r st'. apply domaci_series_grows.
Qed.

Lemma sources_only_append_witness :
  grows_by built init
    (State [(header_S1, JStr "v1")]
       [series_catalog_url 0; meta_url "series" (JStr "s1");
        stream_url "series" (JStr "e1"); stream_url "series" (JStr "e2");
        series_catalog_url 100]).
Proof.
  apply (proj2 (proj2 (sources_only_append net_bad_episode)) 2 init (Ok 1)).
  vm_compute. reflexivity.
Defined.

(** The entries of the paginated sources. *)
Section Fetched.

Variable net : string → option json.

Local Abbreviation inside := (within (grows_by fetched) (λ _, True)).

Ltac raises_basic :=
  destruct py_raises_basic as (? & ? & ? & ? & ? & ? & ? & ? & ? & ?);
  eauto using create_extinf_raises_basic.

Ltac side_goals := try apply _; try done; try solve [raises_basic].

Tactic Notation "lift_step" ident(a) ident(H) :=
  apply within_lift_bind; [..|intros a H]; side_goals.

Tactic Notation "fetch_step" ident(a) :=
  apply within_bind;
    [..|apply (within_fetch _ _ (λ _, True)); [exact (grows_fetch _)|done]|intros a];
    side_goals.

Ltac skip_step := apply within_ret; side_goals.

Tactic Notation "each_step" ident(x) :=
  apply within_for_each; [..|intros x]; side_goals.

Lemma emit_fetched_streams_fetched item content_type streams :
  inside (emit_fetched_streams item content_type streams).
Proof.
  unfold emit_fetched_streams. each_step stream.
  lift_step url Hget. destruct (Py.truthy url) eqn:Ht; [|skip_step].
  lift_step extinf Hbuilt. lift_step url' Hindex.
  apply (within_append _ _ fetched); [exact (grows_append _)|].
  split; [by eapply built_header|]. cbn.
  rewrite (get_truthy_index _ _ _ Hget Ht) in Hindex. by injection Hindex as <-.
Qed.

Lemma fetch_and_emit_fetched item kind id : inside (fetch_and_emit net item kind id).
Proof.
  unfold fetch_and_emit. fetch_step stream_data.
  destruct (Py.truthy stream_data); [|skip_step]. lift_step streams Hget.
  destruct (Py.truthy streams); [|skip_step].
  lift_step streams' Hindex. lift_step stream_list Hiter.
  apply emit_fetched_streams_fetched.
Qed.

Lemma movie_meta_try_fetched meta_id : inside (movie_meta_try net meta_id).
Proof.
  unfold movie_meta_try. fetch_step meta_detail.
  destruct (Py.truthy meta_detail); [|skip_step]. lift_step meta Hget.
  destruct (Py.truthy meta); [|skip_step]. lift_step item Hindex.
  apply fetch_and_emit_fetched.
Qed.

Lemma series_meta_try_fetched meta_id : inside (series_meta_try net meta_id).
Proof.
  unfold series_meta_try, episodes_loop. fetch_step meta_detail.
  destruct (Py.truthy meta_detail); [|skip_step]. lift_step meta Hget.
  destruct (Py.truthy meta); [|skip_step]. lift_step item Hindex.
  lift_step videos Hvideos. destruct (Py.truthy videos); [|skip_step].
  lift_step videos' Hindex'. lift_step video_list Hiter.
  each_step video. unfold episode_body.
  lift_step video_id Hid. destruct (Py.truthy video_id); [|skip_step].
  apply fetch_and_emit_fetched.
Qed.

End Fetched.

(** X9.  Every entry that the two paginated sources append has a truthy
    url: a stream without url, or with an empty one, is passed over.  (The
    static source appends [stream['url']] whatever it is.) *)
Theorem paginated_entries_have_urls net fuel st r st' :
  domaci_movies net fuel st = Some (r, st') ∨ domaci_series net fuel st = Some (r, st') →
  ∃ new, all_entries st' = all_entries st ++ new
         ∧ Forall (λ e, Py.truthy e.2 = true) new.
Proof.
  intros H.
  assert (grows_by fetched st st') as [(new & Hnew & Hall) _].
  { destruct H as [H|H];
      (eapply (within_paginate (grows_by fetched) (λ _, True) (λ _, True));
         [exact (grows_fetch _)|done|done| |exact H]).
    - apply movie_meta_try_fetched.
    - apply series_meta_try_fetched. }
  exists new. split; [done|]. eapply Forall_impl; [exact Hall|]. by intros e [_ ?].
Qed.

Lemma paginated_entries_have_urls_witness :
  ∃ new, [(header_S1, JStr "v1")] = all_entries init ++ new
         ∧ Forall (λ e : entry, Py.truthy e.2 = true) new.
Proof.
  apply (paginated_entries_have_urls net_bad_episode 2 init (Ok 1)
           (State [(header_S1, JStr "v1")]
              [series_catalog_url 0; meta_url "series" (JStr "s1");
               stream_url "series" (JStr "e1"); stream_url "series" (JStr "e2");
               series_catalog_url 100])).
  right. vm_compute. reflexivity.
Defined.

(** ** The numbers of the summary *)

Lemma main_built net fuel r :
  main net fuel = Some (Ok r) →
  ∃ loaded c2 c3 entries, Forall built entries ∧ finish loaded c2 c3 entries = Ok r.
Proof.
  unfold main. pose proof (static_catalog_grows net init) as H1.
  destruct (static_catalog net init) as [[loaded|] st1]; [|done]. cbn in H1.
  destruct (domaci_movies net fuel st1) as [[[c2|] st2]|] eqn:H2; try done.
  destruct (domaci_series net fuel st2) as [[[c3|] st3]|] eqn:H3; try done.
  intros [= Hfin]. exists loaded, c2, c3, (all_entries st3). split; [|done].
  apply domaci_movies_grows in H2. apply domaci_series_grows in H3.
  destruct H1 as [(n1 & E1 & F1) _], H2 as [(n2 & E2 & F2) _], H3 as [(n3 & E3 & F3) _].
  rewrite E3, E2, E1. cbn [init all_entries app]. by repeat apply Forall_app_2.
Qed.

Lemma finish_fields loaded c2 c3 entries r :
  finish loaded c2 c3 entries = Ok r →
  dedup entries = Ok (unique_entries r)
  ∧ total_entries r = length entries
  ∧ movies r = count_with (group_title_part "Movies") (unique_entries r)
  ∧ series r = count_with (group_title_part "Series") (unique_entries r)
  ∧ with_tmdb r = count_with tvg_id_marker (unique_entries r)
  ∧ tmdb_percent (unique_entries r) = Ok (percent r).
Proof.
  unfold finish. destruct (dedup entries) as [unique|] eqn:Hd; [|done].
  cbn [mbind result_bind]. destruct (tmdb_percent unique) as [pc|] eqn:Hp; [|done].
  cbn [mbind result_bind]. by intros [= <-].
Qed.

Lemma count_with_le needle es : count_with needle es ≤ length es.
Proof. unfold count_with. apply length_filter. Qed.

Lemma groups_cover es :
  Forall built es →
  length es ≤ count_with (group_title_part "Movies") es
             + count_with (group_title_part "Series") es.
Proof.
  unfold count_with. induction 1 as [|e es (item & content_type & He) _ IH]; [done|].
  apply header_holds_group in He. unfold group_of in He. rewrite !filter_cons.
  unfold entry in *.
  case_bool_decide; repeat case_decide; cbn [length]; try lia; congruence.
Qed.

Lemma tmdb_percent_bounds unique pc : tmdb_percent unique = Ok pc → (0 ≤ pc ≤ 100)%Z.
Proof.
  rewrite tmdb_percent_value. intros [= <-]. case_decide; [lia|].
  pose proof (count_with_le tvg_id_marker unique).
  assert (0 < length unique) by (destruct unique; [done|cbn; lia]). split.
  - apply Z.div_pos; lia.
  - apply Z.div_le_upper_bound; lia.
Qed.

(** X10.  The numbers a run prints fit together: no more unique entries
    than collected ones, each of the three counts at most the number of
    unique entries, every unique entry counted as a movie or as a series
    (or as both, when a name holds the text of the other group field), and
    a percentage between 0 and 100. *)
Theorem summary_counts_bounded net fuel r :
  main net fuel = Some (Ok r) →
  length (unique_entries r) ≤ total_entries r
  ∧ movies r ≤ length (unique_entries r)
  ∧ series r ≤ length (unique_entries r)
  ∧ with_tmdb r ≤ length (unique_entries r)
  ∧ length (unique_entries r) ≤ movies r + series r
  ∧ (0 ≤ percent r ≤ 100)%Z.
Proof.
  intros (loaded & c2 & c3 & entries & Hbuilt & Hfin)%main_built.
  apply finish_fields in Hfin as (Hd & -> & -> & -> & -> & Hpc).
  apply dedup_loop_inv in Hd as (new & keys & Hnew & Hsub & _).
  cbn [app] in Hnew. subst new. repeat split; try apply count_with_le.
  - by apply sublist_length.
  - apply groups_cover. rewrite Forall_forall in Hbuilt |- *.
    intros e He. apply Hbuilt. by eapply elem_of_sublist.
  - apply tmdb_percent_bounds in Hpc. lia.
  - apply tmdb_percent_bounds in Hpc. lia.
Qed.

Lemma summary_counts_bounded_witness :
  length (unique_entries report_s1) ≤ total_entries report_s1
  ∧ length (unique_entries report_s1) ≤ movies report_s1 + series report_s1.
Proof.
  destruct (summary_counts_bounded net_bad_episode 2 report_s1) as (H1 & _ & _ & _ & H2 & _).
  - vm_compute. reflexivity.
  - split; [exact H1|exact H2].
Defined.

(** ** The deduplicator on urls of any type *)

Lemma hash_key_unhashable v : unhashable v ↔ hash_key v = Raise TypeError.
Proof. by destruct v. Qed.

Lemma hash_key_cases v : unhashable v ∨ ∃ k, hash_key v = Ok k.
Proof. destruct v; cbn; eauto. Qed.

Lemma dedup_loop_raise_iff entries seen_urls acc e :
  dedup_loop entries seen_urls acc = Raise e
  ↔ e = TypeError ∧ Exists (λ x, unhashable x.2) entries.
Proof.
  revert seen_urls acc. induction entries as [|[h u] entries IH]; intros seen_urls acc.
  - cbn. split; [done|]. intros [_ H]. by apply Exists_nil in H.
  - cbn [dedup_loop]. rewrite Exists_cons. cbn [snd].
    destruct (hash_key_cases u) as [Hu|[k Hk]].
    + apply hash_key_unhashable in Hu as Hr. rewrite Hr. cbn.
      split; [intros [= <-]; auto|by intros [-> _]].
    + assert (¬ unhashable u) by (rewrite hash_key_unhashable, Hk; done).
      rewrite Hk. cbn [mbind result_bind].
      case_bool_decide; rewrite IH;
        (split; [intros [-> ?]; auto|intros [-> [?|?]]; [done|auto]]).
Qed.

Lemma dedup_loop_cover entries seen_urls acc out :
  dedup_loop entries seen_urls acc = Ok out →
  ∀ x, x ∈ entries →
    ∃ k, hash_key x.2 = Ok k
         ∧ (k ∈ seen_urls ∨ ∃ y, y ∈ out ∧ hash_key y.2 = Ok k).
Proof.
  revert seen_urls acc. induction entries as [|[h u] entries IH]; intros seen_urls acc.
  - intros _ x Hx. by apply elem_of_nil in Hx.
  - cbn [dedup_loop]. destruct (hash_key u) as [k|] eqn:Hk; [|done].
    cbn [mbind result_bind]. case_bool_decide as Hseen; intros Hout x Hx.
    + apply elem_of_cons in Hx as [->|Hx]; [exists k; auto|by eapply IH].
    + assert ((h, u) ∈ out) as Hhere.
      { apply dedup_loop_inv in Hout as (new & keys & -> & _).
        apply elem_of_app. left. apply elem_of_app. right.
        by apply list_elem_of_singleton. }
      apply elem_of_cons in Hx as [->|Hx]; [exists k; eauto|].
      destruct (IH _ _ Hout x Hx) as (k' & Hk' & [Hin|Hy]); exists k'; [|by auto].
      split; [done|]. apply elem_of_union in Hin as [->%elem_of_singleton|Hin]; eauto.
Qed.

Lemma dedup_loop_fresh new keys seen_urls acc :
  Forall2 (λ e k, hash_key e.2 = Ok k) new keys →
  NoDup keys →
  (∀ k, k ∈ keys → k ∉ seen_urls) →
  dedup_loop new seen_urls acc = Ok (acc ++ new).
Proof.
  intros H. revert seen_urls acc.
  induction H as [|[h u] k new keys Hk _ IH]; intros seen_urls acc Hnd Hfresh.
  - by rewrite app_nil_r.
  - cbn [dedup_loop]. cbn [snd] in Hk. rewrite Hk. cbn [mbind result_bind].
    apply NoDup_cons in Hnd as [Hnotin Hnd].
    rewrite bool_decide_false by (apply Hfresh, elem_of_cons; by left).
    rewrite IH, <- app_assoc; [done|done|].
    intros k' Hin [->%elem_of_singleton|Hseen]%elem_of_union; [done|].
    apply (Hfresh k'); [|done]. apply elem_of_cons. by right.
Qed.

(** X11.  The urls are compared as a [set] compares them, whatever their
    type.  The step raises exactly when some url is a list or a dict, and
    then it raises [TypeError].  Otherwise the result is taken from the
    input in order, every entry of the input has an entry with an equal url
    in the result, and no two entries of the result have equal urls. *)
Theorem dedup_compares_hashed_urls entries :
  (∀ e, dedup entries = Raise e
        ↔ e = TypeError ∧ Exists (λ x, unhashable x.2) entries)
  ∧ (∀ out, dedup entries = Ok out →
       out `sublist_of` entries
       ∧ (∀ x, x ∈ entries → ∃ y, y ∈ out ∧ hash_key y.2 = hash_key x.2)
       ∧ (∀ i j x y, out !! i = Some x → out !! j = Some y →
            hash_key x.2 = hash_key y.2 → i = j)).
Proof.
  split; [intros e; apply dedup_loop_raise_iff|].
  intros out Hout. split; [|split].
  - apply dedup_loop_inv in Hout as (new & keys & -> & Hsub & _). done.
  - intros x Hx. destruct (dedup_loop_cover _ _ _ _ Hout x Hx) as (k & Hk & [Hin|Hy]).
    + by apply elem_of_empty in Hin.
    + destruct Hy as (y & Hy & Hyk). exists y. by rewrite Hk, Hyk.
  - apply dedup_loop_inv in Hout as (new & keys & -> & _ & Hkeys & Hnd & _).
    cbn [app]. intros i j x y Hi Hj Hxy.
    destruct (Forall2_lookup_l _ _ _ _ _ Hkeys Hi) as (kx & Hkx & Hx).
    destruct (Forall2_lookup_l _ _ _ _ _ Hkeys Hj) as (ky & Hky & Hy).
    cbn beta in Hx, Hy. assert (kx = ky) as -> by congruence.
    by eapply NoDup_lookup.
Qed.

Lemma dedup_compares_hashed_urls_witness :
  [("a", JBool true)] `sublist_of` [("a", JBool true); ("b", JInt 1)]
  ∧ dedup [("a", JInt 1); ("b", JArr [])] = Raise TypeError.
Proof.
  split.
  - apply (proj2 (dedup_compares_hashed_urls [("a", JBool true); ("b", JInt 1)])).
    vm_compute. reflexivity.
  - apply (proj1 (dedup_compares_hashed_urls [("a", JInt 1); ("b", JArr [])])).
    split; [reflexivity|]. apply Exists_cons_tl, Exists_cons_hd. exact I.
Defined.

(** X12.  Removing duplicates a second time changes nothing: the retained
    entries go through the step unchanged. *)
Theorem dedup_idempotent entries out : dedup entries = Ok out → dedup out = Ok out.
Proof.
  intros (new & keys & -> & _ & Hkeys & Hnd & _)%dedup_loop_inv. cbn [app].
  unfold dedup. rewrite (dedup_loop_fresh new keys); [done..|].
  intros k _ Hin. by apply elem_of_empty in Hin.
Qed.

Lemma dedup_idempotent_witness :
  dedup [("a", JStr "u1"); ("c", JStr "u2")] = Ok [("a", JStr "u1"); ("c", JStr "u2")].
Proof.
  apply (dedup_idempotent [("a", JStr "u1"); ("b", JStr "u1"); ("c", JStr "u2")]).
  vm_compute. reflexivity.
Defined.

(** ** A run without upstream data *)



(** ** A file that cannot be written *)

Lemma finish_on_finish disk loaded c2 c3 entries :
  finish_on disk loaded c2 c3 entries
  = match finish loaded c2 c3 entries with
    | Ok r => match disk with
              | Ok _ => Ok r
              | Raise e => Raise e
              end
    | Raise e => Raise e
    end.
Proof.
  unfold finish_on, finish. destruct (dedup entries) as [unique|e]; [|done].
  cbn [mbind result_bind]. rewrite tmdb_percent_value.
  by destruct disk as [[]|e].
Qed.


(** ** A catalog item that is not a record *)

Lemma meta_body_not_record meta_try meta st :
  ¬ is_record meta → meta_body meta_try meta st = (Raise AttributeError, st).
Proof.
  intros Hn. unfold meta_body.
  destruct meta; try done. exfalso. apply Hn. by eexists.
Qed.

Lemma catalog_page_not_record net catalog_url meta_try skip count st fields pre bad post :
  page_at net catalog_url skip = JObj fields →
  Py.lookup_field "metas" fields = Some (JArr (pre ++ bad :: post)) →
  Forall is_record pre →
  ¬ is_record bad →
  ∃ st', catalog_page net catalog_url meta_try skip count st = (Raise AttributeError, st').
Proof.
  intros Hpage Hlook Hpre Hbad. unfold catalog_page. rewrite bind_fetch.
  fold (page_at net catalog_url skip). rewrite Hpage.
  set (metas := pre ++ bad :: post) in *. set (st0 := add_request st (catalog_url skip)).
  assert (field fields "metas" = JArr metas) as Hf by (unfold field; by rewrite Hlook).
  assert (Py.truthy (JArr metas) = true) as Hm by (subst metas; by destruct pre).
  assert (Py.truthy (JObj fields) = true) as Ht by (by destruct fields).
  assert (Py.index (JObj fields) "metas" = Ok (JArr metas)) as Hidx
    by (unfold Py.index; by rewrite Hlook).
  rewrite Ht. cbn [negb]. rewrite get_obj, bind_lift_ok, Hf, Hm. cbn [negb].
  rewrite Hidx, bind_lift_ok, Hm. cbn [negb Py.len Py.iter].
  rewrite !bind_lift_ok, bind_run.
  assert ((for_each pre (meta_body meta_try) st0).1 = Ok ()) as Hok.
  { apply for_each_all_ok. eapply Forall_impl; [exact Hpre|].
    intros meta [meta_fields ->] st1. apply meta_body_record_ok. }
  destruct (for_each pre (meta_body meta_try) st0) as [[[]|e] st1] eqn:Hloop; [|done].
  exists st1. subst metas.
  by rewrite (for_each_raise_at pre bad post _ st0 st1 st1 AttributeError Hloop
                (meta_body_not_record _ _ _ Hbad)).
Qed.

(** X14.  [meta.get('id', '')] stands outside the [try]: when the first page
    of a paginated catalog lists, after records, a value that is not a
    record, the loop ends in [AttributeError], and a run that reaches the
    movies loop in this way ends with it: nothing is written. *)
Theorem non_record_item_aborts net source fuel fields pre bad post :
  page_at net (catalog_url_of source) 0 = JObj fields →
  Py.lookup_field "metas" fields = Some (JArr (pre ++ bad :: post)) →
  Forall is_record pre →
  ¬ is_record bad →
  (∀ st, ∃ st', run_paged net source (S fuel) st = Some (Raise AttributeError, st'))
  ∧ (source = DomaciMovies →
     ∀ loaded st1, static_catalog net init = (Ok loaded, st1) →
                   main net (S fuel) = Some (Raise AttributeError)).
Proof.
  intros Hpage Hlook Hpre Hbad.
  assert (∀ st, ∃ st', run_paged net source (S fuel) st
                       = Some (Raise AttributeError, st')) as Hrun.
  { intros st. destruct source; cbn [run_paged catalog_url_of] in *;
      unfold domaci_movies, domaci_series; cbn [paginate].
    - destruct (catalog_page_not_record net movies_catalog_url (movie_meta_try net)
                  0 0 st fields pre bad post) as [st' ->]; eauto.
    - destruct (catalog_page_not_record net series_catalog_url (series_meta_try net)
                  0 0 st fields pre bad post) as [st' ->]; eauto. }
  split; [done|]. intros -> loaded st1 Hstatic. unfold main. rewrite Hstatic.
  destruct (Hrun st1) as [st' Hst']. cbn [run_paged] in Hst'. by rewrite Hst'.
Qed.

Lemma non_record_item_aborts_witness :
  main (λ url, if bool_decide (url = movies_catalog_url 0)
               then Some (JObj [("metas", JArr [JObj []; JStr "m2"])]) else None) 1
  = Some (Raise AttributeError).
Proof.
  eapply (non_record_item_aborts _ DomaciMovies 0 [("metas", JArr [JObj []; JStr "m2"])]
            [JObj []] (JStr "m2") []).
  - reflexivity.
  - reflexivity.
  - repeat constructor. by eexists.
  - intros [? ?]. discriminate.
  - reflexivity.
  - reflexivity.
Defined.

(** ** The requests of one catalog movie *)

Global Instance same_requests_preorder : PreOrder same_requests.
Proof.
  split; [by intros st|]. unfold same_requests. intros st1 st2 st3 H1 H2. congruence.
Qed.

Lemma fetch_and_emit_requests net item kind id st :
  requests (fetch_and_emit net item kind id st).2 = requests st ++ [stream_url kind id].
Proof.
  unfold fetch_and_emit. rewrite bind_fetch.
  set (st0 := add_request st (stream_url kind id)).
  change (requests st ++ [stream_url kind id]) with (requests st0).
  destruct (Py.truthy _); [|done].
  destruct (Py.get _ "streams") as [streams|e];
    [rewrite bind_lift_ok|by rewrite bind_lift_raise].
  destruct (Py.truthy streams); [|done].
  destruct (Py.index _ "streams") as [streams'|e];
    [rewrite bind_lift_ok|by rewrite bind_lift_raise].
  destruct (Py.iter streams') as [stream_list|e];
    [rewrite bind_lift_ok|by rewrite bind_lift_raise].
  by apply (within_emit_fetched_streams same_requests (λ _, True) (λ _, True)).
Qed.

Lemma fetch_and_emit_no_data net item kind id st :
  Py.truthy (default JNull (net (stream_url kind id))) = false →
  all_entries (fetch_and_emit net item kind id st).2 = all_entries st.
Proof. intros H. unfold fetch_and_emit. by rewrite bind_fetch, H. Qed.

(** X15.  Handling one movie of the paginated catalog costs one request, for
    its detail document, or two: the stream list is requested only when the
    detail document holds a truthy [meta], and after it.  Without the second
    request, or when it gives nothing, no entry is appended. *)
Theorem movie_costs_two_requests net meta_id st :
  let st' := (movie_meta_try net meta_id st).2 in
  (requests st' = requests st ++ [meta_url "movie" meta_id]
   ∧ all_entries st' = all_entries st)
  ∨ (requests st' = requests st ++ [meta_url "movie" meta_id; stream_url "movie" meta_id]
     ∧ (Py.truthy (default JNull (net (stream_url "movie" meta_id))) = false →
        all_entries st' = all_entries st)).
Proof.
  cbn zeta. unfold movie_meta_try. rewrite bind_fetch.
  set (st0 := add_request st (meta_url "movie" meta_id)).
  destruct (Py.truthy _); [|by left].
  destruct (Py.get _ "meta") as [meta|e];
    [rewrite bind_lift_ok|rewrite bind_lift_raise; by left].
  destruct (Py.truthy meta); [|by left].
  destruct (Py.index _ "meta") as [item|e];
    [rewrite bind_lift_ok|rewrite bind_lift_raise; by left].
  right. split.
  - rewrite fetch_and_emit_requests. subst st0. cbn [add_request requests].
    by rewrite <- app_assoc.
  - intros H. by rewrite fetch_and_emit_no_data.
Qed.

Lemma movie_costs_two_requests_witness :
  requests (movie_meta_try net_sample (JStr "m1") init).2
  = [meta_url "movie" (JStr "m1"); stream_url "movie" (JStr "m1")].
Proof.
  destruct (movie_costs_two_requests net_sample (JStr "m1") init) as [[H _]|[H _]].
  - vm_compute in H. discriminate H.
  - exact H.
Defined.

(** ** The counts of the static catalog *)

Lemma static_item_counts item content_type count st c st' :
  static_item item content_type count st = (Ok c, st') →
  appended_at_least (c - count) st st' ∧ count ≤ c.
Proof.
  intros (fields & -> & [(_ & -> & ->)|(_ & -> & streams & h & urls & _ & Hne & _ & Hurls & ->)])%static_item_inv.
  - split; [|done]. exists []. rewrite add_entries_nil. split; [done|lia].
  - split; [|lia]. eexists. split; [done|]. rewrite length_fmap.
    rewrite (urls_of_length _ _ Hurls). destruct streams; [done|cbn; lia].
Qed.

Lemma movie_body_counts movie count st c st' :
  movie_body movie count st = (Ok c, st') →
  appended_at_least (c - count) st st' ∧ count ≤ c.
Proof.
  destruct (Py.get movie "category") as [category|e] eqn:Hget.
  - rewrite (movie_body_static _ _ _ _ Hget). destruct (in_domestic category).
    + apply static_item_counts.
    + intros [= <- <-]. split; [|done]. exists []. rewrite add_entries_nil.
      split; [done|lia].
  - unfold movie_body. by rewrite Hget, bind_lift_raise.
Qed.

Lemma for_count_counts {A} (body : A → nat → M nat) l count st c st' :
  (∀ x count st c st', body x count st = (Ok c, st') →
     appended_at_least (c - count) st st' ∧ count ≤ c) →
  for_count l count body st = (Ok c, st') →
  appended_at_least (c - count) st st' ∧ count ≤ c.
Proof.
  intros Hbody. revert count st. induction l as [|x l IH]; intros count st.
  - intros [= <- <-]. split; [|done]. exists []. rewrite add_entries_nil.
    split; [done|lia].
  - cbn [for_count]. rewrite bind_run.
    destruct (body x count st) as [[c1|] st1] eqn:Hx; [|done].
    apply Hbody in Hx as [(n1 & -> & Hn1) Hc1].
    intros [(n2 & -> & Hn2) Hc2]%IH. split; [|lia]. exists (n1 ++ n2).
    rewrite add_entries_app, length_app. split; [done|lia].
Qed.

(** X16.  The two numbers that the static catalog reports count items, and
    every counted item has contributed an entry: together they are at most
    the number of entries that the source appended. *)
Theorem loaded_counts_bounded net st movie_count series_count st' :
  static_catalog net st = (Ok (movie_count, series_count), st') →
  ∃ new, all_entries st' = all_entries st ++ new
         ∧ movie_count + series_count ≤ length new.
Proof.
  unfold static_catalog. rewrite bind_fetch.
  set (st0 := add_request st baubau_url).
  destruct (Py.truthy _); cycle 1.
  { intros [= <- <- <-]. exists []. by rewrite app_nil_r. }
  destruct (Py.get_default _ "movies" _) as [movies|];
    [rewrite bind_lift_ok|by rewrite bind_lift_raise].
  destruct (Py.iter movies) as [movie_list|];
    [rewrite bind_lift_ok|by rewrite bind_lift_raise].
  rewrite bind_run.
  destruct (for_count movie_list 0 movie_body st0) as [[mc|] st1] eqn:Hmovies; [|done].
  destruct (Py.get_default _ "series" _) as [series|];
    [rewrite bind_lift_ok|by rewrite bind_lift_raise].
  destruct (Py.iter series) as [series_list|];
    [rewrite bind_lift_ok|by rewrite bind_lift_raise].
  rewrite bind_run.
  destruct (for_count series_list 0 series_body st1) as [[sc|] st2] eqn:Hseries; [|done].
  intros [= <- <- <-].
  apply (for_count_counts _ _ _ _ _ _ movie_body_counts) in Hmovies as [(n1 & -> & H1) _].
  apply for_count_counts in Hseries as [(n2 & -> & H2) _];
    [|intros x c s c' s'; rewrite series_body_static; apply static_item_counts].
  exists (n1 ++ n2). rewrite add_entries_app, length_app. split; [done|lia].
Qed.

Lemma loaded_counts_bounded_witness :
  ∃ new, all_entries (static_catalog net_sample init).2 = all_entries init ++ new
         ∧ 1 + 1 ≤ length new.
Proof.
  apply (loaded_counts_bounded net_sample init 1 1). vm_compute. reflexivity.
Defined.
